(** * pyvenn: the petal computation of [venn/_venn.py]

    A shallow embedding of [generate_logics], [generate_petals] and the
    validation and drawing sequence of [venn], with the properties of the
    pattern enumeration and of the petal partition.

    Python values are modelled as follows: [int] as [Z], [str] as
    [string], a [set] as a [gset] over any countable element type, the
    [dict] of petal descriptions as a [gmap string string], the [float]
    of the percentage as an IEEE binary64 [spec_float], exceptions as the
    [Raise] branch of [result]. *)

From Stdlib Require Import ZArith Ascii String List Lia SpecFloat.
From stdpp Require Import base numbers option list strings gmap fin_sets.

Local Open Scope string_scope.
Local Open Scope list_scope.
Local Open Scope nat_scope.
Local Open Scope stdpp_scope.

(** ** Exceptions *)

(** The exceptions the modelled code can raise: the built-in errors of the
    operations it uses, and [ValueError], the only one raised by a [raise]
    statement of the source (with its message). *)
Inductive exn : Type :=
  | TypeError
  | IndexError
  | ZeroDivisionError
  | KeyError (key : string)
  | ValueError (msg : string).

Inductive result (A : Type) : Type :=
  | Ok (a : A)
  | Raise (e : exn).
Arguments Ok {A} a.
Arguments Raise {A} e.

#[global] Instance result_ret : MRet result := @Ok.
#[global] Instance result_bind : MBind result := λ A B f m,
  match m with
  | Ok a => f a
  | Raise e => Raise e
  end.
#[global] Instance exn_eq_dec : EqDecision exn.
Proof. solve_decision. Defined.

Definition is_Ok {A} (r : result A) : Prop := ∃ a, r = Ok a.

(** A [for] loop that updates an accumulator and stops at the first
    exception. *)
Fixpoint for_each {A S : Type} (body : S → A → result S) (l : list A) (s : S)
  : result S :=
  match l with
  | [] => Ok s
  | x :: l' => s' ← body s x; for_each body l' s'
  end.

(** A list comprehension whose element expression may raise. *)
Fixpoint comprehension {A B : Type} (f : A → result (option B)) (l : list A)
  : result (list B) :=
  match l with
  | [] => Ok []
  | x :: l' =>
      o ← f x;
      r ← comprehension f l';
      Ok (match o with Some b => b :: r | None => r end)
  end.

(** ** Strings *)

Module PyStr.

(** [s[k:]] for [0 <= k]. *)
Fixpoint slice_from (k : nat) (s : string) : string :=
  match k, s with
  | O, _ => s
  | S _, EmptyString => EmptyString
  | S k', String _ s' => slice_from k' s'
  end.

(** [c * k] for a one-character string [c]. *)
Fixpoint repeat (c : ascii) (k : nat) : string :=
  match k with
  | O => EmptyString
  | S k' => String c (repeat c k')
  end.

(** [s.zfill(width)]: zeros are inserted on the left, after a leading
    sign, until the string has [width] characters. *)
Definition zfill (width : nat) (s : string) : string :=
  let fill := repeat "0"%char (width - String.length s) in
  match s with
  | String c s' =>
      if bool_decide (c = "+"%char ∨ c = "-"%char)
      then String c (fill +:+ s')
      else fill +:+ s
  | EmptyString => fill
  end.

(** [s[i]] for [0 <= i]. *)
Definition index (s : string) (i : nat) : result ascii :=
  match String.get i s with
  | Some c => Ok c
  | None => Raise IndexError
  end.

(** The binary digits of a positive number, most significant first. *)
Fixpoint bin_digits (p : positive) : string :=
  match p with
  | xH => "1"
  | xO q => bin_digits q +:+ "0"
  | xI q => bin_digits q +:+ "1"
  end.

(** [bin(i)]. *)
Definition bin (i : Z) : string :=
  match i with
  | Z0 => "0b0"
  | Zpos p => "0b" +:+ bin_digits p
  | Zneg p => "-0b" +:+ bin_digits p
  end.

(** The decimal digits of a positive number. *)
Definition dec_digit (d : Z) : ascii :=
  ascii_of_nat (48 + Z.to_nat d).

Fixpoint dec_digits_fuel (fuel : nat) (x : Z) (acc : string) : string :=
  match fuel with
  | O => acc
  | S fuel' =>
      let acc' := String (dec_digit (x `mod` 10)) acc in
      if bool_decide (x < 10)%Z then acc'
      else dec_digits_fuel fuel' (x `div` 10)%Z acc'
  end.

(** [str(i)] for an [int]. *)
Definition str_int (i : Z) : string :=
  match i with
  | Z0 => "0"
  | Zpos p => dec_digits_fuel (Pos.size_nat p) i ""
  | Zneg p => String "-"%char (dec_digits_fuel (Pos.size_nat p) (Zpos p) "")
  end.

End PyStr.

(** ** The pattern enumerator *)

(** [range(a, b)]. *)
Definition py_range (a b : Z) : list Z := seqZ a (b - a).

(** [generate_logics(n_sets)], as the list of the strings it yields. *)
Definition generate_logics (n_sets : nat) : list string :=
  (λ i, PyStr.zfill n_sets (PyStr.slice_from 2 (PyStr.bin i)))
    <$> py_range 1 (2 ^ Z.of_nat n_sets).

(** The number a string of binary digits denotes; [None] when a character
    is neither 0 nor 1. *)
Fixpoint bin_value_acc (acc : Z) (s : string) : option Z :=
  match s with
  | EmptyString => Some acc
  | String c s' =>
      if bool_decide (c = "0"%char) then bin_value_acc (2 * acc) s'
      else if bool_decide (c = "1"%char) then bin_value_acc (2 * acc + 1) s'
      else None
  end.
Definition bin_value (s : string) : option Z := bin_value_acc 0 s.

(** ** The percentage and its formatting *)

Module PyFloat.

Definition prec : Z := 53.
Definition emax : Z := 1024.

(** [float(i)], rounded to the nearest binary64 number. *)
Definition of_int (i : Z) : spec_float := binary_normalize prec emax i 0 false.

(** [a / b] on two [int]s: the quotient as a binary64 number. The
    operands of the modelled code are sizes of sets, far below [2^53],
    so both conversions are exact and the quotient is correctly
    rounded, as Python's true division is. *)
Definition truediv (a b : Z) : result spec_float :=
  if bool_decide (b = 0%Z) then Raise ZeroDivisionError
  else Ok (SFdiv prec emax (of_int a) (of_int b)).

(** Rounding of the fraction [n / d] to the nearest integer, ties to
    even, for [0 <= n] and [0 < d]. *)
Definition round_half_even (n d : Z) : Z :=
  let q := (n `div` d)%Z in
  let r := (n `mod` d)%Z in
  match (2 * r ?= d)%Z with
  | Lt => q
  | Gt => (q + 1)%Z
  | Eq => if Z.even q then q else (q + 1)%Z
  end.

Definition pad_left (width : nat) (s : string) : string :=
  PyStr.repeat "0"%char (width - String.length s) +:+ s.

(** The digits of [|x|] in fixed notation with [digits] fractional
    digits, for [x] the number [m * 2^e]. *)
Definition fixed_digits (digits : nat) (m : positive) (e : Z) : string :=
  let scale := (10 ^ Z.of_nat digits)%Z in
  let q :=
    if bool_decide (0 ≤ e)%Z then (Zpos m * 2 ^ e * scale)%Z
    else round_half_even (Zpos m * scale) (2 ^ (- e)) in
  let ip := PyStr.str_int (q `div` scale) in
  match digits with
  | O => ip
  | S _ => ip +:+ "." +:+ pad_left digits (PyStr.str_int (q `mod` scale))
  end.

(** [format(x, ".<digits>f")]. *)
Definition format_f (digits : nat) (x : spec_float) : string :=
  let sign (s : bool) := if s then "-" else "" in
  match x with
  | S754_nan => "nan"
  | S754_infinity s => sign s +:+ "inf"
  | S754_zero s =>
      sign s +:+ match digits with
                 | O => "0"
                 | S _ => "0." +:+ PyStr.repeat "0"%char digits
                 end
  | S754_finite s m e => sign s +:+ fixed_digits digits m e
  end.

End PyFloat.

(** A format template, as the function [fmt.format] computes from the
    keyword arguments [logic], [size] and [percentage]; formatting may
    raise. *)
Definition template : Type := string → Z → spec_float → result string.

(** The default template ["{size} ({percentage:.1f}%)"]. *)
Definition default_fmt : template := λ logic size percentage,
  Ok (PyStr.str_int size +:+ " (" +:+ PyFloat.format_f 1 percentage +:+ "%)").

(** ** The petal computer *)

(** [l[i]] for [0 <= i]. *)
Definition list_index {A} (l : list A) (i : nat) : result A :=
  match l !! i with
  | Some x => Ok x
  | None => Raise IndexError
  end.

(** [[datasets[i] for i in range(n_sets) if logic[i] == bit]]; the
    elements of [datasets] are the set objects, whatever represents them. *)
Definition select_sets {A} (datasets : list A) (n_sets : nat)
    (logic : string) (bit : ascii) : result (list A) :=
  comprehension
    (λ i, c ← PyStr.index logic i;
          if bool_decide (c = bit)
          then d ← list_index datasets i; Ok (Some d)
          else Ok None)
    (seq 0 n_sets).

Section petals.
Context `{Countable K}.

(** [len(s)] of a set. *)
Definition len (s : gset K) : Z := Z.of_nat (size s).

(** [set.union] called on the unpacked list [args]: the unbound method
    needs its receiver, the first argument. *)
Definition set_union (args : list (gset K)) : result (gset K) :=
  match args with
  | [] => Raise TypeError
  | s :: others => Ok (foldl (∪) s others)
  end.

(** [set.intersection] called on the unpacked list [args]. *)
Definition set_intersection (args : list (gset K)) : result (gset K) :=
  match args with
  | [] => Raise TypeError
  | s :: others => Ok (foldl (∩) s others)
  end.

(** The value of [petal_set] in the loop body of [generate_petals]. *)
Definition petal_set (datasets : list (gset K)) (dataset_union : gset K)
    (logic : string) : result (gset K) :=
  let n_sets := length datasets in
  included_sets ← select_sets datasets n_sets logic "1"%char;
  excluded_sets ← select_sets datasets n_sets logic "0"%char;
  inter ← set_intersection included_sets;
  excl ← set_union (∅ :: excluded_sets);
  Ok ((dataset_union ∩ inter) ∖ excl).

(** One iteration of the loop of [generate_petals]. *)
Definition petal_step (datasets : list (gset K)) (dataset_union : gset K)
    (universe_size : Z) (fmt : template)
    (petals : gmap string string) (logic : string)
  : result (gmap string string) :=
  ps ← petal_set datasets dataset_union logic;
  percentage ← PyFloat.truediv (100 * len ps) universe_size;
  description ← fmt logic (len ps) percentage;
  Ok (<[logic := description]> petals).

Definition generate_petals (datasets : list (gset K)) (fmt : template)
  : result (gmap string string) :=
  let n_sets := length datasets in
  dataset_union ← set_union datasets;
  let universe_size := len dataset_union in
  for_each (petal_step datasets dataset_union universe_size fmt)
    (generate_logics n_sets) ∅.

End petals.

(** ** The diagram assembly *)

(** The rendering side of [venn]. The types of matplotlib's values (colour
    specifications, RGBA colours) and of the entries of the layout tables
    of [venn/_constants.py] are left abstract, and so are the tables
    themselves, the two matplotlib calls that produce colours and the
    method that draws the legend. *)
Section venn.
Variables colorspec opacity rgba coords dims angle point : Type.

(** [to_rgba(color, alpha=alpha)]; an invalid colour raises. *)
Variable to_rgba : colorspec → opacity → result rgba.
(** [ScalarMappable(cmap=cmap).to_rgba(range(n_colors), alpha=alpha)]. *)
Variable sample_cmap : string → nat → opacity → result (list rgba).

(** The tables [SHAPE_COORDS], [SHAPE_DIMS], [SHAPE_ANGLES] and
    [PETAL_LABEL_COORDS], keyed by the number of sets; the last one maps
    to the items of a [dict], in their order. *)
Variable SHAPE_COORDS : nat → option (list coords).
Variable SHAPE_DIMS : nat → option (list dims).
Variable SHAPE_ANGLES : nat → option (list angle).
Variable PETAL_LABEL_COORDS : nat → option (list (string * point)).

(** The argument [cmap]: a list of colours or the name of a colormap. *)
Inductive cmap_arg : Type :=
  | CmapList (colors : list colorspec)
  | CmapName (name : string).

Inductive shape_kind : Type := EllipseShape | TriangleShape.

(** What an axes object holds: the patches and the texts that were added
    to it, and a legend with the labels of its entries. *)
Inductive artist : Type :=
  | Patch (kind : shape_kind) (c : coords) (d : dims) (a : angle)
      (facecolor : rgba)
  | Text (xy : point) (text : string) (fontsize : Z)
  | Legend (labels : list string) (loc : string) (fontsize : Z).

Definition axes : Type := list artist.

(** [ax.legend(labels, loc=legend_loc, prop={"size": fontsize})]. The
    method belongs to matplotlib: it builds the legend from the artists
    the axes hold and from the labels, puts it in the place of an earlier
    legend, and may raise. It is a parameter here, from the content of
    the axes and the arguments of the call to the content of the axes
    after the call. *)
Variable ax_legend : axes → list string → string → Z → result axes.

(** A table lookup [T[n_sets]]. *)
Definition table_lookup {A} (T : nat → option A) (n_sets : nat) : result A :=
  match T n_sets with
  | Some v => Ok v
  | None => Raise (KeyError (PyStr.str_int (Z.of_nat n_sets)))
  end.

Definition select_colors (n_colors : nat) (cmap : cmap_arg) (alpha : opacity)
  : result (list rgba) :=
  if bool_decide (n_colors < 2 ∨ 6 < n_colors)
  then Raise (ValueError "n_colors must be an integer between 2 and 6")
  else
    colors ← match cmap with
             | CmapList l =>
                 comprehension (λ color, c ← to_rgba color alpha; Ok (Some c)) l
             | CmapName name => sample_cmap name n_colors alpha
             end;
    Ok (take n_colors colors).

(** [init_axes]: a fresh axes object when none is given. Setting the
    aspect, frame and ticks adds no artist. *)
Definition init_axes (ax : option axes) : axes :=
  match ax with
  | None => []
  | Some a => a
  end.

(** The checks of [venn] before anything is drawn: every key of
    [petals] has as many characters as there are labels, and the number
    of labels selects the shape. *)
Definition check_petal_keys (keys : list string) (n_sets : nat) : result () :=
  for_each
    (λ _ logic,
       if bool_decide (String.length logic ≠ n_sets)
       then Raise (ValueError "Inconsistent petal and dataset labels")
       else Ok ())
    keys ().

Definition choose_shape (n_sets : nat) : result shape_kind :=
  if bool_decide (2 ≤ n_sets ∧ n_sets < 6) then Ok EllipseShape
  else if bool_decide (n_sets = 6) then Ok TriangleShape
  else Raise (ValueError "Number of sets must be between 2 and 6").

(** [zip] of four sequences. *)
Fixpoint zip4 {A B C D} (la : list A) (lb : list B) (lc : list C)
    (ld : list D) : list (A * B * C * D) :=
  match la, lb, lc, ld with
  | a :: la', b :: lb', c :: lc', d :: ld' =>
      (a, b, c, d) :: zip4 la' lb' lc' ld'
  | _, _, _, _ => []
  end.

(** The loop over the shapes: [ax.add_patch] adds one patch per call; it
    is taken not to fail on the entries of the tables. The edge colour of
    a patch is a function of its face colour and is not recorded. *)
Definition draw_shapes (kind : shape_kind)
    (params : list (coords * dims * angle * rgba)) (ax : axes) : axes :=
  foldl (λ ax '(c, d, a, color), ax ++ [Patch kind c d a color]) ax params.

(** The loop over the items of the label table; [petals[logic]] raises
    [KeyError] for a pattern the mapping does not have. The axes keep
    what was drawn before. *)
Fixpoint draw_labels (petals : gmap string string)
    (items : list (string * point)) (fontsize : Z) (ax : axes)
  : axes * result () :=
  match items with
  | [] => (ax, Ok ())
  | (logic, xy) :: items' =>
      match petals !! logic with
      | None => (ax, Raise (KeyError logic))
      | Some text => draw_labels petals items' fontsize (ax ++ [Text xy text fontsize])
      end
  end.

(** The last lines of [venn]: the legend, when a location is given, and
    the return of the axes. When [ax.legend] raises, the content kept is
    that of the axes before the call. *)
Definition add_legend (labels : list string) (fontsize : Z)
    (legend_loc : option string) (ax : axes) : axes * result axes :=
  match legend_loc with
  | None => (ax, Ok ax)
  | Some loc =>
      match ax_legend ax labels loc fontsize with
      | Ok ax' => (ax', Ok ax')
      | Raise e => (ax, Raise e)
      end
  end.

(** [venn]. The first component is the content of the axes the call drew
    on, the second the returned axes or the exception. *)
Definition venn (petals : gmap string string) (labels : list string)
    (cmap : cmap_arg) (alpha : opacity) (fontsize : Z) (legend_loc : option string)
    (ax : option axes) : axes * result axes :=
  let n_sets := length labels in
  match
    (_ ← check_petal_keys (fst <$> map_to_list petals) n_sets;
     draw_shape ← choose_shape n_sets;
     colors ← select_colors n_sets cmap alpha;
     Ok (draw_shape, colors))
  with
  | Raise e => (init_axes ax, Raise e)
  | Ok (draw_shape, colors) =>
      let ax := init_axes ax in
      match
        (sc ← table_lookup SHAPE_COORDS n_sets;
         sd ← table_lookup SHAPE_DIMS n_sets;
         sa ← table_lookup SHAPE_ANGLES n_sets;
         Ok (zip4 sc sd sa colors))
      with
      | Raise e => (ax, Raise e)
      | Ok shape_params =>
          let ax := draw_shapes draw_shape shape_params ax in
          match table_lookup PETAL_LABEL_COORDS n_sets with
          | Raise e => (ax, Raise e)
          | Ok items =>
              match draw_labels petals items fontsize ax with
              | (ax, Raise e) => (ax, Raise e)
              | (ax, Ok _) => add_legend labels fontsize legend_loc ax
              end
          end
      end
  end.

End venn.

Arguments CmapList {colorspec} colors.
Arguments CmapName {colorspec} name.

Arguments venn {colorspec opacity rgba coords dims angle point}
  to_rgba sample_cmap SHAPE_COORDS SHAPE_DIMS SHAPE_ANGLES PETAL_LABEL_COORDS
  ax_legend petals labels cmap alpha fontsize legend_loc ax.
Arguments add_legend {rgba coords dims angle point} ax_legend
  labels fontsize legend_loc ax.
Arguments select_colors {colorspec opacity rgba} to_rgba sample_cmap
  n_colors cmap alpha.
Arguments draw_labels {rgba coords dims angle point} petals items fontsize ax.
Arguments draw_shapes {rgba coords dims angle point} kind params ax.
Arguments init_axes {rgba coords dims angle point} ax.
Arguments Patch {rgba coords dims angle point} kind c d a facecolor.
Arguments Text {rgba coords dims angle point} xy text fontsize.
Arguments Legend {rgba coords dims angle point} labels loc fontsize.

(** ** Set objects in a store *)

(** [generate_petals] once more, this time with the set objects held in a
    store, so that what the call does to its arguments can be stated. A
    store is the list of the set objects allocated so far, an object is
    known by its position, and [datasets] is a list of such references
    (two of them may be the same object). Every set operation of the
    source ([set.union], [set.intersection], [set()], [&], [-]) builds a
    new object; none updates an operand in place. *)
(** The store: the set objects allocated so far. A reference to a set
    object is its position in the store. *)
Abbreviation store K := (list (gset K)) (only parsing).
Abbreviation ref := nat (only parsing).

Section store.
Context `{Countable K}.


(** Computations that read and extend the store and may raise. *)
Definition heapM (A : Type) : Type := store K → store K * result A.

Definition h_ret {A} (a : A) : heapM A := λ h, (h, Ok a).
Definition h_bind {A B} (m : heapM A) (f : A → heapM B) : heapM B :=
  λ h, match m h with
       | (h', Ok a) => f a h'
       | (h', Raise e) => (h', Raise e)
       end.
Definition h_lift {A} (r : result A) : heapM A := λ h, (h, r).

(** The value of an object. *)
Definition h_read (r : ref) : heapM (gset K) := λ h, (h, Ok (h !!! r)).
(** A new object. *)
Definition h_new (s : gset K) : heapM ref := λ h, (h ++ [s], Ok (length h)).

Definition h_len (r : ref) : heapM Z := λ h, (h, Ok (len (h !!! r))).

Definition h_set_union (args : list ref) : heapM ref :=
  match args with
  | [] => h_lift (Raise TypeError)
  | r :: others => λ h, h_new (foldl (∪) (h !!! r) ((h !!!.) <$> others)) h
  end.

Definition h_set_intersection (args : list ref) : heapM ref :=
  match args with
  | [] => h_lift (Raise TypeError)
  | r :: others => λ h, h_new (foldl (∩) (h !!! r) ((h !!!.) <$> others)) h
  end.

(** [a & b] and [a - b]. *)
Definition h_and (a b : ref) : heapM ref := λ h, h_new (h !!! a ∩ h !!! b) h.
Definition h_sub (a b : ref) : heapM ref := λ h, h_new (h !!! a ∖ h !!! b) h.

Fixpoint h_for_each {A S} (body : S → A → heapM S) (l : list A) (s : S)
  : heapM S :=
  match l with
  | [] => h_ret s
  | x :: l' => h_bind (body s x) (h_for_each body l')
  end.

End store.

Notation "'let!' x := m 'in' k" := (h_bind m (λ x, k))
  (at level 10, x name, m at level 100, k at level 200,
   format "'[v' 'let!'  x  :=  m  'in' '/' k ']'").

Section store_petals.
Context `{Countable K}.

Definition petal_set_h (datasets : list ref) (dataset_union : ref)
    (logic : string) : heapM (K:=K) ref :=
  let n_sets := length datasets in
  let! included_sets := h_lift (select_sets datasets n_sets logic "1"%char) in
  let! excluded_sets := h_lift (select_sets datasets n_sets logic "0"%char) in
  let! inter := h_set_intersection included_sets in
  let! both := h_and dataset_union inter in
  let! empty := h_new ∅ in
  let! excl := h_set_union (empty :: excluded_sets) in
  h_sub both excl.

Definition petal_step_h (datasets : list ref) (dataset_union : ref)
    (universe_size : Z) (fmt : template)
    (petals : gmap string string) (logic : string)
  : heapM (K:=K) (gmap string string) :=
  let! ps := petal_set_h datasets dataset_union logic in
  let! size := h_len ps in
  let! size' := h_len ps in
  let! percentage := h_lift (PyFloat.truediv (100 * size') universe_size) in
  let! description := h_lift (fmt logic size percentage) in
  h_ret (<[logic := description]> petals).

Definition generate_petals_h (datasets : list ref) (fmt : template)
  : heapM (K:=K) (gmap string string) :=
  let n_sets := length datasets in
  let! dataset_union := h_set_union datasets in
  let! universe_size := h_len dataset_union in
  h_for_each (petal_step_h datasets dataset_union universe_size fmt)
    (generate_logics n_sets) ∅.

End store_petals.

(** ** A concrete rendering environment *)

Module Demo.

(** Modelled from the spec: the layout tables of [venn/_constants.py],
    which are not part of the sources at hand. For each N in [2,6] the
    tables hold N shapes, and the label table maps each pattern of N
    datasets to a coordinate. Colours, coordinates, dimensions and
    angles are left without content. *)
Definition in_range (n : nat) : bool := bool_decide (2 ≤ n ∧ n ≤ 6).

Definition SHAPES (n : nat) : option (list ()) :=
  if in_range n then Some (replicate n ()) else None.

Definition PETAL_LABEL_COORDS (n : nat) : option (list (string * ())) :=
  if in_range n then Some ((λ logic, (logic, ())) <$> generate_logics n)
  else None.

Definition to_rgba (color : ()) (alpha : ()) : result () := Ok ().

Definition sample_cmap (name : string) (n : nat) (alpha : ())
  : result (list ()) := Ok (replicate n ()).

Definition is_patch (a : artist () () () () ()) : bool :=
  match a with Patch _ _ _ _ _ => true | _ => false end.

Definition is_legend (a : artist () () () () ()) : bool :=
  match a with Legend _ _ _ => true | _ => false end.

(** A stand-in for matplotlib's [ax.legend]: the legend has one entry per
    patch of the axes, as far as there are labels, it takes the place of
    an earlier legend, and every location is accepted. *)
Definition ax_legend (ax : axes () () () () ()) (labels : list string)
    (loc : string) (fontsize : Z) : result (axes () () () () ()) :=
  Ok (filter (λ a, negb (is_legend a)) ax
      ++ [Legend (take (length (filter (λ a, is_patch a) ax)) labels)
            loc fontsize]).

(** [venn] in this environment, with the default colormap and legend
    location and without axes. *)
Definition venn (petals : gmap string string) (labels : list string) :=
  venn to_rgba sample_cmap SHAPES SHAPES SHAPES PETAL_LABEL_COORDS ax_legend
    petals labels (CmapName "viridis") () 13 (Some "upper right") None.

End Demo.

(** * Notions used in the statements *)

(** ** Patterns as lists of bits *)

(** A pattern read as a list of bits, first dataset first. *)
Definition bit_char (b : bool) : ascii := if b then "1"%char else "0"%char.

Fixpoint logic_of_bits (bs : list bool) : string :=
  match bs with
  | [] => EmptyString
  | b :: bs' => String (bit_char b) (logic_of_bits bs')
  end.

(** The [n] low bits of [i], most significant first. *)
Fixpoint bits (n : nat) (i : Z) : list bool :=
  match n with
  | O => []
  | S n' => bits n' (i `div` 2) ++ [Z.odd i]
  end.

Fixpoint pos_bits (p : positive) : list bool :=
  match p with
  | xH => [true]
  | xO q => pos_bits q ++ [false]
  | xI q => pos_bits q ++ [true]
  end.

Definition bits_value (bs : list bool) : Z :=
  foldl (λ acc (b : bool), (2 * acc + (if b then 1 else 0))%Z) 0%Z bs.

(** ** Petals, as the specification words them *)

Section notions.
Context `{Countable K}.
Implicit Types (datasets l : list (gset K)) (U : gset K).

(** The datasets whose bit in the pattern is [bit], in their order. *)
Definition sets_with_bit datasets (logic : string) (bit : ascii)
  : list (gset K) :=
  omap (λ i, if bool_decide (String.get i logic = Some bit)
             then datasets !! i else None)
    (seq 0 (length datasets)).

(** The intersection of a non-empty list of sets. *)
Fixpoint intersection_of (l : list (gset K)) : gset K :=
  match l with
  | [] => ∅
  | [s] => s
  | s :: l' => s ∩ intersection_of l'
  end.

(** The petal of a pattern, as the specification words it. *)
Definition petal datasets U (logic : string) : gset K :=
  (U ∩ intersection_of (sets_with_bit datasets logic "1"%char))
    ∖ ⋃ (sets_with_bit datasets logic "0"%char).

(** The pattern of an element: which datasets it belongs to. *)
Definition signature datasets (x : K) : list bool :=
  (λ d, bool_decide (x ∈ d)) <$> datasets.

(** What the loop leaves in the dictionary for one pattern. *)
Definition entry_of datasets U (fmt : template) (logic desc : string) : Prop :=
  ∃ percentage,
    PyFloat.truediv (100 * len (petal datasets U logic)) (len U)
      = Ok percentage
    ∧ fmt logic (len (petal datasets U logic)) percentage = Ok desc.

(** Every reference of the list is an object of the store. *)
Definition valid (h : store K) (datasets : list ref) : Prop :=
  Forall (λ r, r < length h) datasets.

End notions.

(** A template that formats every triple of arguments. *)
Definition total_template (fmt : template) : Prop :=
  ∀ logic size percentage, ∃ s, fmt logic size percentage = Ok s.

(** An exception raised by a [raise] statement of the module, as opposed
    to one that a built-in operation raises. *)
Definition explicit_error (e : exn) : Prop := ∃ msg, e = ValueError msg.

(** The messages of the two [ValueError]s of [venn]. *)
Definition inconsistent_labels : string :=
  "Inconsistent petal and dataset labels".
Definition invalid_cardinality : string :=
  "Number of sets must be between 2 and 6".

(** The image of a result. *)
Definition result_map {A B} (f : A → B) (r : result A) : result B :=
  match r with
  | Ok a => Ok (f a)
  | Raise e => Raise e
  end.

(** ** Notions for the further properties *)

Section descriptions.
Context `{Countable K}.

(** The description the loop of [generate_petals] computes for a pattern:
    the template applied to the pattern, the size of its petal and the
    percentage of the Universe. *)
Definition describe (datasets : list (gset K)) (U : gset K) (fmt : template)
    (logic : string) : result string :=
  percentage ← PyFloat.truediv (100 * len (petal datasets U logic)) (len U);
  fmt logic (len (petal datasets U logic)) percentage.

End descriptions.

Section figure.
Context {rgba coords dims angle point : Type}.

(** The patches of a list of shape parameters, in their order. *)
Definition shape_patches (kind : shape_kind)
    (params : list (coords * dims * angle * rgba))
  : axes rgba coords dims angle point :=
  (λ '(c, d, a, color), Patch kind c d a color) <$> params.

(** The labels of the patterns of a layout table that the mapping has,
    in the order of the table. *)
Definition label_texts (petals : gmap string string)
    (items : list (string * point)) (fontsize : Z)
  : axes rgba coords dims angle point :=
  omap (λ '(logic, xy), (λ text, Text xy text fontsize) <$> petals !! logic)
    items.

End figure.

(** The shape [venn] draws for a number of sets in [2,6]. *)
Definition shape_of (n_sets : nat) : shape_kind :=
  if decide (n_sets = 6) then TriangleShape else EllipseShape.

(** A template that cannot format the pattern 10: formatting that pattern
    raises [KeyError], as a template with an unknown field does. *)
Definition failing_fmt : template := λ logic size percentage,
  if bool_decide (logic = "10") then Raise (KeyError "count")
  else Ok (PyStr.str_int size).

(** A stand-in for matplotlib's [to_rgba] on colour names: three names
    are colours, any other string is rejected with [ValueError]. *)
Definition named_to_rgba (color : string) (alpha : ()) : result string :=
  if bool_decide (color ∈ ["red"; "green"; "blue"]) then Ok color
  else Raise (ValueError "Invalid RGBA argument").

(** * Properties *)

(** ** Examples of the enumeration and of the formatting *)

Example generate_logics_2 : generate_logics 2 = ["01"; "10"; "11"].
Proof. reflexivity. Qed.

Example generate_logics_3 :
  generate_logics 3 = ["001"; "010"; "011"; "100"; "101"; "110"; "111"].
Proof. reflexivity. Qed.

Example str_int_examples :
  PyStr.str_int 0 = "0" ∧ PyStr.str_int 7 = "7" ∧ PyStr.str_int 10 = "10"
  ∧ PyStr.str_int 409 = "409" ∧ PyStr.str_int (-25) = "-25".
Proof. repeat split; reflexivity. Qed.

Example format_f_examples :
  PyFloat.truediv 100 4 ≫= (λ x, Ok (PyFloat.format_f 1 x)) = Ok "25.0"
  ∧ PyFloat.truediv 100 3 ≫= (λ x, Ok (PyFloat.format_f 1 x)) = Ok "33.3"
  ∧ PyFloat.truediv 200 3 ≫= (λ x, Ok (PyFloat.format_f 1 x)) = Ok "66.7"
  ∧ PyFloat.truediv 100 2000 ≫= (λ x, Ok (PyFloat.format_f 1 x)) = Ok "0.1"
  ∧ PyFloat.truediv 300 2000 ≫= (λ x, Ok (PyFloat.format_f 1 x)) = Ok "0.1"
  ∧ PyFloat.truediv 500 2000 ≫= (λ x, Ok (PyFloat.format_f 1 x)) = Ok "0.2"
  ∧ PyFloat.truediv 0 4 ≫= (λ x, Ok (PyFloat.format_f 1 x)) = Ok "0.0"
  ∧ PyFloat.truediv 400 4 ≫= (λ x, Ok (PyFloat.format_f 1 x)) = Ok "100.0"
  ∧ PyFloat.truediv 1 0 = Raise ZeroDivisionError.
Proof. vm_compute. repeat split; reflexivity. Qed.

Example generate_petals_example :
  generate_petals [({[1; 2; 3]} : gset Z); {[2; 3; 4]}]%Z default_fmt
  = Ok {[ "10" := "1 (25.0%)"; "01" := "1 (25.0%)"; "11" := "2 (50.0%)" ]}.
Proof. vm_compute. reflexivity. Qed.

(** ** Patterns and lists of bits *)

Lemma logic_of_bits_app bs1 bs2 :
  logic_of_bits (bs1 ++ bs2) = logic_of_bits bs1 +:+ logic_of_bits bs2.
Proof. induction bs1 as [|b bs1 IH]; simpl; [done|]. by rewrite IH. Qed.

Lemma length_logic_of_bits bs : String.length (logic_of_bits bs) = length bs.
Proof. induction bs as [|b bs IH]; simpl; [done|]. by rewrite IH. Qed.

Lemma get_logic_of_bits bs i :
  String.get i (logic_of_bits bs) = bit_char <$> bs !! i.
Proof.
  revert i. induction bs as [|b bs IH]; intros [|i]; simpl; done.
Qed.

Lemma bit_char_inj b1 b2 : bit_char b1 = bit_char b2 → b1 = b2.
Proof. by destruct b1, b2. Qed.

Lemma logic_of_bits_inj bs1 bs2 :
  logic_of_bits bs1 = logic_of_bits bs2 → bs1 = bs2.
Proof.
  revert bs2. induction bs1 as [|b bs1 IH]; intros [|b2 bs2]; simpl; try done.
  intros [= Hb Hs]. f_equal; [by apply bit_char_inj | by apply IH].
Qed.

Lemma repeat_zero_bits k :
  PyStr.repeat "0"%char k = logic_of_bits (replicate k false).
Proof. induction k as [|k IH]; simpl; [done|]. by rewrite IH. Qed.

Lemma bin_digits_bits p : PyStr.bin_digits p = logic_of_bits (pos_bits p).
Proof.
  induction p as [q IH|q IH|]; simpl; [| |done];
    by rewrite IH, logic_of_bits_app.
Qed.

Lemma pos_bits_nonempty p : ∃ b bs, pos_bits p = b :: bs.
Proof.
  induction p as [q [b [bs IH]]|q [b [bs IH]]|]; simpl; [| |by eauto];
    rewrite IH; simpl; eauto.
Qed.

Lemma bits_zero n : bits n 0 = replicate n false.
Proof.
  induction n as [|n IH]; simpl; [done|].
  rewrite Z.div_0_l by lia. rewrite IH. simpl.
  clear IH. induction n as [|n IH]; simpl; [done|]. by rewrite IH.
Qed.

Lemma length_bits n i : length (bits n i) = n.
Proof.
  revert i. induction n as [|n IH]; intros i; simpl; [done|].
  rewrite length_app, IH. simpl. lia.
Qed.

Lemma length_pos_bits_bound p n :
  (Zpos p < 2 ^ Z.of_nat n)%Z → length (pos_bits p) ≤ n.
Proof.
  revert n. induction p as [q IH|q IH|]; intros n Hn; simpl.
  - destruct n as [|n]; [simpl in Hn; lia|].
    rewrite length_app. simpl.
    rewrite Nat2Z.inj_succ, Z.pow_succ_r in Hn by lia.
    specialize (IH n). lia.
  - destruct n as [|n]; [simpl in Hn; lia|].
    rewrite length_app. simpl.
    rewrite Nat2Z.inj_succ, Z.pow_succ_r in Hn by lia.
    specialize (IH n). lia.
  - destruct n as [|n]; [simpl in Hn; lia|]. lia.
Qed.

Lemma div2_xI q : (Z.pos q~1 `div` 2)%Z = Z.pos q.
Proof. rewrite Pos2Z.inj_xI. symmetry. apply Z.div_unique with 1%Z; lia. Qed.

Lemma div2_xO q : (Z.pos q~0 `div` 2)%Z = Z.pos q.
Proof. rewrite Pos2Z.inj_xO. symmetry. apply Z.div_unique with 0%Z; lia. Qed.

Lemma pad_pos_bits p n :
  (Zpos p < 2 ^ Z.of_nat n)%Z →
  replicate (n - length (pos_bits p)) false ++ pos_bits p = bits n (Zpos p).
Proof.
  revert n. induction p as [q IH|q IH|]; intros n Hn.
  - destruct n as [|n]; [simpl in Hn; lia|].
    rewrite Nat2Z.inj_succ, Z.pow_succ_r in Hn by lia.
    simpl bits. simpl pos_bits. rewrite length_app. simpl length.
    rewrite div2_xI.
    rewrite <- IH by lia. rewrite <- app_assoc.
    by replace (S n - (length (pos_bits q) + 1)) with (n - length (pos_bits q)) by lia.
  - destruct n as [|n]; [simpl in Hn; lia|].
    rewrite Nat2Z.inj_succ, Z.pow_succ_r in Hn by lia.
    simpl bits. simpl pos_bits. rewrite length_app. simpl length.
    rewrite div2_xO.
    rewrite <- IH by lia. rewrite <- app_assoc.
    by replace (S n - (length (pos_bits q) + 1)) with (n - length (pos_bits q)) by lia.
  - destruct n as [|n]; [simpl in Hn; lia|].
    simpl bits. simpl pos_bits. simpl length.
    replace (1 `div` 2)%Z with 0%Z by done.
    rewrite bits_zero. by replace (S n - 1) with n by lia.
Qed.

(** The padded binary numeral of [generate_logics] is the list of the [n]
    low bits. *)
Lemma zfill_bin n i :
  (1 ≤ i < 2 ^ Z.of_nat n)%Z →
  PyStr.zfill n (PyStr.slice_from 2 (PyStr.bin i)) = logic_of_bits (bits n i).
Proof.
  intros Hi. destruct i as [|p|p]; [lia| |lia].
  change (PyStr.slice_from 2 (PyStr.bin (Z.pos p))) with (PyStr.bin_digits p).
  rewrite <- pad_pos_bits by lia.
  rewrite logic_of_bits_app, <- repeat_zero_bits, bin_digits_bits.
  rewrite <- (length_logic_of_bits (pos_bits p)).
  unfold PyStr.zfill.
  destruct (pos_bits_nonempty p) as (b & bs & ->). simpl logic_of_bits.
  cbv beta iota.
  rewrite bool_decide_eq_false_2; [done|].
  by destruct b; intros [?|?].
Qed.

Lemma generate_logics_bits n :
  generate_logics n
  = (λ i, logic_of_bits (bits n i)) <$> seqZ 1 (2 ^ Z.of_nat n - 1).
Proof.
  unfold generate_logics, py_range.
  apply list_fmap_ext. intros k i Hi.
  apply lookup_seqZ in Hi as [-> Hk].
  apply zfill_bin. lia.
Qed.

Lemma bits_value_snoc bs (b : bool) :
  bits_value (bs ++ [b]) = (2 * bits_value bs + (if b then 1 else 0))%Z.
Proof. unfold bits_value. by rewrite foldl_app. Qed.

Lemma bits_value_bound bs :
  (0 ≤ bits_value bs < 2 ^ Z.of_nat (length bs))%Z.
Proof.
  induction bs as [|b bs IH] using rev_ind; [done|].
  rewrite bits_value_snoc, length_app. simpl length.
  replace (Z.of_nat (length bs + 1)) with (Z.succ (Z.of_nat (length bs))) by lia.
  rewrite Z.pow_succ_r by lia. destruct b; lia.
Qed.

Lemma bits_value_bits n i :
  (0 ≤ i < 2 ^ Z.of_nat n)%Z → bits_value (bits n i) = i.
Proof.
  revert i. induction n as [|n IH]; intros i Hi.
  - simpl in *. unfold bits_value. simpl. lia.
  - rewrite Nat2Z.inj_succ, Z.pow_succ_r in Hi by lia.
    simpl bits. rewrite bits_value_snoc, IH.
    + rewrite (Z.div_mod i 2) at 3 by lia.
      rewrite Zmod_odd. by destruct (Z.odd i).
    + split; [apply Z.div_pos; lia|].
      apply Z.div_lt_upper_bound; lia.
Qed.

Lemma bits_bits_value bs : bits (length bs) (bits_value bs) = bs.
Proof.
  induction bs as [|b bs IH] using rev_ind; [done|].
  rewrite length_app. simpl length.
  replace (length bs + 1) with (S (length bs)) by lia.
  simpl bits. rewrite bits_value_snoc.
  pose proof (bits_value_bound bs) as Hv.
  replace ((2 * bits_value bs + (if b then 1 else 0)) `div` 2)%Z
    with (bits_value bs)
    by (apply Z.div_unique with (if b then 1 else 0)%Z; destruct b; lia).
  rewrite IH. f_equal. f_equal.
  destruct b.
  - by rewrite Z.add_comm, Z.odd_add_mul_2.
  - by rewrite Z.add_0_r, Z.odd_mul.
Qed.

Lemma bits_value_zero bs : bits_value bs = 0%Z ↔ true ∉ bs.
Proof.
  induction bs as [|b bs IH] using rev_ind.
  - split; [intros _; apply not_elem_of_nil | done].
  - rewrite bits_value_snoc, not_elem_of_app, <- IH.
    pose proof (bits_value_bound bs) as Hv.
    destruct b.
    + split; [lia|]. intros [_ Hn]. destruct Hn. by apply list_elem_of_singleton.
    + split; [intros; split; [lia|]|lia].
      by intros ?%list_elem_of_singleton.
Qed.

Lemma bin_value_acc_logic bs acc :
  bin_value_acc acc (logic_of_bits bs)
  = Some (foldl (λ acc (b : bool), (2 * acc + (if b then 1 else 0))%Z) acc bs).
Proof.
  revert acc. induction bs as [|b bs IH]; intros acc; simpl; [done|].
  destruct b; simpl; rewrite IH; do 2 f_equal; lia.
Qed.

Lemma bin_value_logic bs : bin_value (logic_of_bits bs) = Some (bits_value bs).
Proof. apply bin_value_acc_logic. Qed.

(** The patterns of [generate_logics n] are the strings of [n] bits that
    have a 1 somewhere. *)
Lemma elem_of_generate_logics n s :
  s ∈ generate_logics n
  ↔ ∃ bs, s = logic_of_bits bs ∧ length bs = n ∧ true ∈ bs.
Proof.
  rewrite generate_logics_bits, list_elem_of_fmap. split.
  - intros (i & -> & Hi). apply elem_of_seqZ in Hi.
    exists (bits n i). split; [done|]. split; [apply length_bits|].
    destruct (decide (true ∈ bits n i)) as [|Hn]; [done|].
    apply bits_value_zero in Hn. rewrite bits_value_bits in Hn; lia.
  - intros (bs & -> & <- & Ht).
    exists (bits_value bs). split; [by rewrite bits_bits_value|].
    apply elem_of_seqZ. pose proof (bits_value_bound bs).
    assert (bits_value bs ≠ 0%Z) by (by intros ?%bits_value_zero).
    lia.
Qed.

Lemma NoDup_generate_logics n : NoDup (generate_logics n).
Proof.
  rewrite generate_logics_bits.
  apply NoDup_fmap_2_strong; [|apply NoDup_seqZ].
  intros i j Hi%elem_of_seqZ Hj%elem_of_seqZ Hij.
  apply logic_of_bits_inj in Hij.
  rewrite <- (bits_value_bits n i), <- (bits_value_bits n j) by lia.
  by rewrite Hij.
Qed.

Lemma length_generate_logics n : length (generate_logics n) = 2 ^ n - 1.
Proof.
  unfold generate_logics, py_range.
  rewrite length_fmap, length_seqZ.
  rewrite <- (Nat2Z.id (2 ^ n - 1)). f_equal.
  rewrite Nat2Z.inj_sub, Nat2Z.inj_pow; [done|].
  change 1 with (2 ^ 0). apply Nat.pow_le_mono_r; lia.
Qed.

Lemma lookup_generate_logics n k s :
  generate_logics n !! k = Some s →
  s = logic_of_bits (bits n (1 + Z.of_nat k))
  ∧ (1 + Z.of_nat k < 2 ^ Z.of_nat n)%Z.
Proof.
  rewrite generate_logics_bits, list_lookup_fmap.
  destruct (seqZ 1 (2 ^ Z.of_nat n - 1) !! k) as [i|] eqn:Hk; [|done].
  apply lookup_seqZ in Hk as [-> Hk]. intros [= <-]. split; [done | lia].
Qed.

Lemma bin_value_generate_logics n k s :
  generate_logics n !! k = Some s → bin_value s = Some (1 + Z.of_nat k)%Z.
Proof.
  intros [-> Hk]%lookup_generate_logics.
  rewrite bin_value_logic, bits_value_bits; [done | lia].
Qed.

(** ** The pattern enumerator: claim C2 *)

(** C2. For every N, in particular for 2 <= N <= 6, [generate_logics N]
    yields exactly 2^N - 1 strings, without repetition; each has exactly N
    characters, all of them 0 or 1; read as binary numerals the strings
    denote 1, 2, ..., 2^N - 1 in this order, so the values are strictly
    ascending; and the all-zero string of length N is not among them. *)
Theorem generate_logics_enumeration (n : nat) :
  length (generate_logics n) = 2 ^ n - 1
  ∧ NoDup (generate_logics n)
  ∧ (∀ s, s ∈ generate_logics n →
       String.length s = n
       ∧ ∀ i c, String.get i s = Some c → c = "0"%char ∨ c = "1"%char)
  ∧ bin_value <$> generate_logics n = Some <$> seqZ 1 (2 ^ Z.of_nat n - 1)
  ∧ (∀ i j s t, i < j →
       generate_logics n !! i = Some s → generate_logics n !! j = Some t →
       ∃ u v, bin_value s = Some u ∧ bin_value t = Some v ∧ (u < v)%Z)
  ∧ PyStr.repeat "0"%char n ∉ generate_logics n.
Proof.
  split; [apply length_generate_logics|].
  split; [apply NoDup_generate_logics|].
  split; [|split; [|split]].
  - intros s (bs & -> & Hlen & _)%elem_of_generate_logics.
    split; [by rewrite length_logic_of_bits|].
    intros i c. rewrite get_logic_of_bits.
    destruct (bs !! i) as [[]|]; simpl; intros [= <-]; auto.
  - rewrite generate_logics_bits, <- list_fmap_compose.
    apply list_fmap_ext. intros k i [-> Hk]%lookup_seqZ. simpl.
    rewrite bin_value_logic, bits_value_bits; [done | lia].
  - intros i j s t Hij Hs%bin_value_generate_logics Ht%bin_value_generate_logics.
    eexists _, _. split; [done|]. split; [done|]. lia.
  - intros (bs & Hbs & Hlen & Ht)%elem_of_generate_logics.
    rewrite repeat_zero_bits in Hbs. apply logic_of_bits_inj in Hbs.
    subst bs. by apply elem_of_replicate in Ht as [? _].
Qed.

(** ** The petal sets *)

Lemma bind_Ok {A B} (a : A) (f : A → result B) : Ok a ≫= f = f a.
Proof. done. Qed.

Lemma bind_Raise {A B} (e : exn) (f : A → result B) : Raise e ≫= f = Raise e.
Proof. done. Qed.

Lemma comprehension_omap {A B} (f : A → result (option B)) (g : A → option B)
    (l : list A) :
  (∀ x, x ∈ l → f x = Ok (g x)) → comprehension f l = Ok (omap g l).
Proof.
  induction l as [|x l IH]; intros Hf; simpl; [done|].
  rewrite Hf by left. simpl.
  rewrite IH by (intros y Hy; apply Hf; by right). simpl.
  by destruct (g x).
Qed.

Lemma mapM_Ok {A B} (f : A → result B) (g : A → B) (l : list A) :
  (∀ x, x ∈ l → f x = Ok (g x)) → mapM f l = Ok (g <$> l).
Proof.
  induction l as [|x l IH]; intros Hf; simpl; [done|].
  rewrite Hf by left. simpl.
  rewrite IH by (intros y Hy; apply Hf; by right). done.
Qed.

Section petal_sets.
Context `{Countable K}.
Implicit Types (datasets l : list (gset K)) (U : gset K) (bs : list bool).

Lemma elem_of_foldl_union (s : gset K) others x :
  x ∈ foldl (∪) s others ↔ x ∈ s ∨ ∃ d, d ∈ others ∧ x ∈ d.
Proof.
  revert s. induction others as [|d others IH]; intros s; simpl.
  - split; [auto|]. intros [?|(d & Hd & _)]; [done|]. by apply elem_of_nil in Hd.
  - rewrite IH, elem_of_union. split.
    + intros [[?|?]|(d' & ? & ?)]; [by left| |].
      * right. exists d. split; [left|done].
      * right. exists d'. split; [by right|done].
    + intros [?|(d' & [->|?]%elem_of_cons & ?)]; [by left; left|by left; right|].
      right. by exists d'.
Qed.

Lemma elem_of_foldl_intersection (s : gset K) others x :
  x ∈ foldl (∩) s others ↔ x ∈ s ∧ ∀ d, d ∈ others → x ∈ d.
Proof.
  revert s. induction others as [|d others IH]; intros s; simpl.
  - split; [|by intros [? _]]. intros ?; split; [done|].
    intros d Hd. by apply elem_of_nil in Hd.
  - rewrite IH, elem_of_intersection. split.
    + intros [[? ?] Ho]. split; [done|].
      intros d' [->|?]%elem_of_cons; auto.
    + intros [? Ho]. split; [split; [done|apply Ho; left]|].
      intros d' ?. apply Ho. by right.
Qed.

Lemma elem_of_intersection_of l x :
  l ≠ [] → x ∈ intersection_of l ↔ ∀ d, d ∈ l → x ∈ d.
Proof.
  induction l as [|s l IH]; [done|]. intros _.
  destruct l as [|s' l].
  - simpl. split; [by intros ? d ->%list_elem_of_singleton|].
    intros Hd. apply Hd. left.
  - change (intersection_of (s :: s' :: l))
      with (s ∩ intersection_of (s' :: l)).
    rewrite elem_of_intersection, IH by done. split.
    + intros [? Hl] d [->|?]%elem_of_cons; auto.
    + intros Hd. split; [apply Hd; left|]. intros d ?. apply Hd. by right.
Qed.

Lemma set_union_Ok datasets U :
  set_union datasets = Ok U →
  datasets ≠ [] ∧ ∀ x, x ∈ U ↔ ∃ d, d ∈ datasets ∧ x ∈ d.
Proof.
  destruct datasets as [|s others]; simpl; [done|]. intros [= <-].
  split; [done|]. intros x. rewrite elem_of_foldl_union. split.
  - intros [?|(d & ? & ?)]; [exists s; split; [left|done]|].
    exists d. split; [by right|done].
  - intros (d & [->|?]%elem_of_cons & ?); [by left|]. right. by exists d.
Qed.

Lemma set_intersection_Ok l :
  l ≠ [] → set_intersection l = Ok (intersection_of l).
Proof.
  destruct l as [|s others]; [done|]. intros _. simpl set_intersection.
  f_equal. apply set_eq. intros x.
  rewrite elem_of_foldl_intersection, elem_of_intersection_of by done.
  split.
  - intros [? Ho] d [->|?]%elem_of_cons; auto.
  - intros Hd. split; [apply Hd; left|]. intros d ?. apply Hd. by right.
Qed.

Lemma set_union_empty_cons l : set_union (∅ :: l) = Ok (⋃ l).
Proof.
  simpl. f_equal. apply set_eq. intros x.
  rewrite elem_of_foldl_union, elem_of_union_list.
  split; [|by right]. intros [Hx|?]; [|done]. by apply not_elem_of_empty in Hx.
Qed.

(** The two comprehensions of the loop body neither run out of the
    pattern nor out of the list of datasets. *)
Lemma select_sets_Ok datasets bs (b : bool) :
  length bs = length datasets →
  select_sets datasets (length datasets) (logic_of_bits bs) (bit_char b)
  = Ok (sets_with_bit datasets (logic_of_bits bs) (bit_char b)).
Proof.
  intros Hlen. unfold select_sets, sets_with_bit.
  apply comprehension_omap. intros i [_ Hi]%elem_of_seq. simpl in Hi.
  unfold PyStr.index. rewrite get_logic_of_bits.
  destruct (lookup_lt_is_Some_2 bs i) as [b' Hb']; [lia|].
  destruct (lookup_lt_is_Some_2 datasets i) as [d Hd]; [lia|].
  rewrite Hb'. simpl. unfold list_index. rewrite Hd.
  destruct (decide (b' = b)) as [->|Hne].
  - by rewrite !bool_decide_eq_true_2.
  - rewrite !bool_decide_eq_false_2; [done| |].
    + intros [= ?%bit_char_inj]. done.
    + intros ?%bit_char_inj. done.
Qed.

Lemma elem_of_sets_with_bit datasets bs (b : bool) d :
  d ∈ sets_with_bit datasets (logic_of_bits bs) (bit_char b)
  ↔ ∃ i, datasets !! i = Some d ∧ bs !! i = Some b.
Proof.
  unfold sets_with_bit. rewrite list_elem_of_omap. split.
  - intros (i & _ & Hi). exists i. rewrite get_logic_of_bits in Hi.
    case_bool_decide as Hb; [|done]. split; [done|].
    destruct (bs !! i) as [b'|]; [|done]. simpl in Hb.
    injection Hb as ->%bit_char_inj. done.
  - intros (i & Hd & Hb). exists i. split.
    + apply elem_of_seq. split; [lia|]. simpl. by eapply lookup_lt_Some.
    + rewrite get_logic_of_bits, Hb. simpl. by rewrite bool_decide_eq_true_2.
Qed.

Lemma sets_with_bit_nonempty datasets bs (b : bool) :
  length bs = length datasets → b ∈ bs →
  sets_with_bit datasets (logic_of_bits bs) (bit_char b) ≠ [].
Proof.
  intros Hlen (i & Hi)%list_elem_of_lookup_1.
  destruct (lookup_lt_is_Some_2 datasets i) as [d Hd].
  { rewrite <- Hlen. by eapply lookup_lt_Some. }
  assert (d ∈ sets_with_bit datasets (logic_of_bits bs) (bit_char b)) as Hin
    by (apply elem_of_sets_with_bit; eauto).
  intros Hnil. rewrite Hnil in Hin. by apply elem_of_nil in Hin.
Qed.

(** The loop body computes the petal of every enumerated pattern. *)
Lemma petal_set_bits datasets U bs :
  length bs = length datasets → true ∈ bs →
  petal_set datasets U (logic_of_bits bs)
  = Ok (petal datasets U (logic_of_bits bs)).
Proof.
  intros Hlen Ht. unfold petal_set, petal.
  change "1"%char with (bit_char true). change "0"%char with (bit_char false).
  rewrite (select_sets_Ok datasets bs true Hlen), bind_Ok.
  rewrite (select_sets_Ok datasets bs false Hlen), bind_Ok.
  rewrite set_intersection_Ok
    by (by apply (sets_with_bit_nonempty datasets bs true)).
  by rewrite bind_Ok, set_union_empty_cons, bind_Ok.
Qed.

Lemma petal_set_Ok datasets U logic :
  logic ∈ generate_logics (length datasets) →
  petal_set datasets U logic = Ok (petal datasets U logic).
Proof.
  intros (bs & -> & Hlen & Ht)%elem_of_generate_logics.
  by apply petal_set_bits.
Qed.

(** An element is in the petal of a pattern exactly when its membership
    in every dataset is the one the pattern prescribes. *)
Lemma elem_of_petal datasets U bs x :
  set_union datasets = Ok U →
  length bs = length datasets → true ∈ bs →
  x ∈ petal datasets U (logic_of_bits bs) ↔ bs = signature datasets x.
Proof.
  intros [_ HU]%set_union_Ok Hlen Ht. unfold petal.
  change "1"%char with (bit_char true). change "0"%char with (bit_char false).
  rewrite elem_of_difference, elem_of_intersection, HU, elem_of_union_list.
  rewrite elem_of_intersection_of
    by (by apply (sets_with_bit_nonempty datasets bs true)).
  split.
  - intros [[_ Hinc] Hexc]. apply list_eq. intros i.
    unfold signature. rewrite list_lookup_fmap.
    destruct (bs !! i) as [b|] eqn:Hb.
    + destruct (lookup_lt_is_Some_2 datasets i) as [d Hd].
      { rewrite <- Hlen. by eapply lookup_lt_Some. }
      rewrite Hd. simpl. f_equal. destruct b.
      * symmetry. apply bool_decide_eq_true_2. apply Hinc.
        apply (elem_of_sets_with_bit datasets bs true). eauto.
      * symmetry. apply bool_decide_eq_false_2. intros Hx. apply Hexc.
        exists d. split; [|done].
        apply (elem_of_sets_with_bit datasets bs false). eauto.
    + apply lookup_ge_None in Hb.
      rewrite (proj2 (lookup_ge_None datasets i)) by lia. done.
  - intros ->. unfold signature in *.
    assert (∀ (b : bool) d,
      d ∈ sets_with_bit datasets
            (logic_of_bits ((λ d, bool_decide (x ∈ d)) <$> datasets))
            (bit_char b)
      → bool_decide (x ∈ d) = b) as Hsig.
    { intros b d (i & Hd & Hb)%elem_of_sets_with_bit.
      rewrite list_lookup_fmap, Hd in Hb. by injection Hb. }
    split; [split|].
    + apply list_elem_of_fmap in Ht as (d & Hd & ?).
      exists d. split; [done|]. by eapply bool_decide_eq_true_1.
    + intros d Hd%(Hsig true). by eapply bool_decide_eq_true_1.
    + intros (d & Hd%(Hsig false) & Hx).
      by apply bool_decide_eq_false_1 in Hd.
Qed.

Lemma signature_logic datasets U x :
  set_union datasets = Ok U → x ∈ U →
  logic_of_bits (signature datasets x) ∈ generate_logics (length datasets).
Proof.
  intros [_ HU]%set_union_Ok (d & Hd & Hx)%HU.
  apply elem_of_generate_logics. exists (signature datasets x).
  split; [done|]. unfold signature. split; [by rewrite length_fmap|].
  apply list_elem_of_fmap. exists d. split; [|done].
  symmetry. by apply bool_decide_eq_true_2.
Qed.

Lemma size_union_list_disjoint (ps : list (gset K)) :
  (∀ i j p q, i ≠ j → ps !! i = Some p → ps !! j = Some q → p ## q) →
  sum_list (size <$> ps) = size (⋃ ps).
Proof.
  induction ps as [|p ps IH]; intros Hdisj.
  - rewrite union_list_nil, size_empty. done.
  - rewrite fmap_cons, union_list_cons. simpl sum_list.
    rewrite size_union, IH; [done| |].
    + intros i j p' q' Hij Hi Hj. by apply (Hdisj (S i) (S j)); [lia| |].
    + intros x Hx (q & (j & Hj)%list_elem_of_lookup_1 & Hxq)%elem_of_union_list.
      by apply (Hdisj 0 (S j) p q ltac:(lia) eq_refl Hj x).
Qed.

(** The petals of the enumerated patterns, in the order of the
    enumeration, are what the loop body computes; they are pairwise
    disjoint, their union is the Universe, every element of the Universe
    is in exactly one of them, and their sizes add up to the size of the
    Universe. *)
Lemma petal_sets_partition datasets U :
  set_union datasets = Ok U →
  let ps := petal datasets U <$> generate_logics (length datasets) in
  mapM (petal_set datasets U) (generate_logics (length datasets)) = Ok ps
  ∧ length ps = length (generate_logics (length datasets))
  ∧ (∀ i j p q, i ≠ j → ps !! i = Some p → ps !! j = Some q → p ## q)
  ∧ ⋃ ps = U
  ∧ (∀ x, x ∈ U →
       ∃ i p, ps !! i = Some p ∧ x ∈ p
         ∧ ∀ j q, ps !! j = Some q → x ∈ q → j = i)
  ∧ sum_list (size <$> ps) = size U.
Proof.
  intros HU. cbv zeta. set (logics := generate_logics (length datasets)).
  assert (∀ i p, (petal datasets U <$> logics) !! i = Some p →
    ∃ bs, logics !! i = Some (logic_of_bits bs)
      ∧ p = petal datasets U (logic_of_bits bs)
      ∧ length bs = length datasets ∧ true ∈ bs) as Hlook.
  { intros i p. rewrite list_lookup_fmap.
    destruct (logics !! i) as [logic|] eqn:Hi; [|done]. intros [= <-].
    pose proof (list_elem_of_lookup_2 _ _ _ Hi) as Hin.
    apply elem_of_generate_logics in Hin as (bs & -> & ? & ?). eauto. }
  assert (∀ i j p q, i ≠ j →
    (petal datasets U <$> logics) !! i = Some p →
    (petal datasets U <$> logics) !! j = Some q → p ## q) as Hdisj.
  { intros i j p q Hij (bs1 & Hi & -> & ? & ?)%Hlook (bs2 & Hj & -> & ? & ?)%Hlook.
    intros x Hx1%elem_of_petal Hx2%elem_of_petal; try done.
    apply Hij. eapply NoDup_lookup; [apply NoDup_generate_logics|done|].
    rewrite Hx1, <- Hx2. exact Hj. }
  assert (⋃ (petal datasets U <$> logics) = U) as Hcover.
  { apply set_eq. intros x. rewrite elem_of_union_list. split.
    - intros (p & (i & (bs & _ & -> & ? & ?)%Hlook)%list_elem_of_lookup_1 & Hx).
      unfold petal in Hx.
      by apply elem_of_difference in Hx as [[? _]%elem_of_intersection _].
    - intros Hx. exists (petal datasets U (logic_of_bits (signature datasets x))).
      split.
      + apply list_elem_of_fmap. eexists. split; [done|].
        by eapply signature_logic.
      + pose proof (signature_logic _ _ _ HU Hx) as Hs.
        apply elem_of_generate_logics in Hs as (bs & Heq%logic_of_bits_inj & Hl & Ht).
        rewrite <- Heq in Hl, Ht. by apply elem_of_petal. }
  split; [|split; [|split; [|split; [|split]]]].
  - apply mapM_Ok. intros logic Hl. by apply petal_set_Ok.
  - by rewrite length_fmap.
  - done.
  - done.
  - intros x Hx. rewrite <- Hcover in Hx.
    apply elem_of_union_list in Hx as (p & (i & Hi)%list_elem_of_lookup_1 & Hx).
    exists i, p. split; [done|]. split; [done|].
    intros j q Hj Hxq. destruct (decide (j = i)) as [|Hne]; [done|].
    destruct (Hdisj j i q p Hne Hj Hi x Hxq Hx).
  - by rewrite size_union_list_disjoint, Hcover.
Qed.

Lemma elem_of_sets_with_bit_get datasets logic bit d :
  d ∈ sets_with_bit datasets logic bit
  ↔ ∃ i, datasets !! i = Some d ∧ String.get i logic = Some bit.
Proof.
  unfold sets_with_bit. rewrite list_elem_of_omap. split.
  - intros (i & _ & Hi). exists i. by case_bool_decide.
  - intros (i & Hd & Hb). exists i. split.
    + apply elem_of_seq. split; [lia|]. simpl. by eapply lookup_lt_Some.
    + by rewrite bool_decide_eq_true_2.
Qed.

Lemma repeat_one_bits n :
  PyStr.repeat "1"%char n = logic_of_bits (replicate n true).
Proof. induction n as [|n IH]; simpl; [done|]. by rewrite IH. Qed.

Lemma all_ones_logic datasets :
  datasets ≠ [] →
  PyStr.repeat "1"%char (length datasets) ∈ generate_logics (length datasets).
Proof.
  intros Hne. apply elem_of_generate_logics.
  exists (replicate (length datasets) true).
  split; [apply repeat_one_bits|]. split; [apply length_replicate|].
  destruct datasets; [done|]. left.
Qed.

(** For every pattern produced for the datasets, the loop body selects
    the datasets whose bit is 1 and those whose bit is 0 without error,
    the first list is not empty, and the petal set is the Universe
    intersected with the intersection of the first list, minus the union
    of the second. For the all-ones pattern no dataset is excluded, the
    subtracted set is the empty set, and the petal is the intersection of
    all datasets. *)
Lemma petal_set_formula_sets datasets U logic :
  set_union datasets = Ok U →
  logic ∈ generate_logics (length datasets) →
  let included := sets_with_bit datasets logic "1"%char in
  let excluded := sets_with_bit datasets logic "0"%char in
  select_sets datasets (length datasets) logic "1"%char = Ok included
  ∧ select_sets datasets (length datasets) logic "0"%char = Ok excluded
  ∧ included ≠ []
  ∧ petal_set datasets U logic
    = Ok ((U ∩ intersection_of included) ∖ ⋃ excluded)
  ∧ (∀ x, x ∈ (U ∩ intersection_of included) ∖ ⋃ excluded ↔
       x ∈ U
       ∧ (∀ i d, datasets !! i = Some d →
            String.get i logic = Some "1"%char → x ∈ d)
       ∧ (∀ i d, datasets !! i = Some d →
            String.get i logic = Some "0"%char → x ∉ d))
  ∧ PyStr.repeat "1"%char (length datasets)
      ∈ generate_logics (length datasets)
  ∧ (logic = PyStr.repeat "1"%char (length datasets) →
       excluded = []
       ∧ set_union (∅ :: excluded) = Ok ∅
       ∧ petal_set datasets U logic = Ok (intersection_of datasets)).
Proof.
  intros HU Hlogic included excluded.
  pose proof Hlogic as (bs & Hbs & Hlen & Ht)%elem_of_generate_logics.
  assert (included ≠ []) as Hinc.
  { subst included logic. by apply (sets_with_bit_nonempty datasets bs true). }
  split; [subst logic; by apply (select_sets_Ok datasets bs true)|].
  split; [subst logic; by apply (select_sets_Ok datasets bs false)|].
  split; [done|].
  split; [by apply petal_set_Ok|].
  split; [|split; [apply all_ones_logic; by apply set_union_Ok in HU as [? _]|]].
  - intros x.
    rewrite elem_of_difference, elem_of_intersection, elem_of_union_list.
    rewrite elem_of_intersection_of by done. subst included excluded.
    split.
    + intros [[? Hi] He]. split; [done|]. split.
      * intros i d ? ?. apply Hi. apply elem_of_sets_with_bit_get. eauto.
      * intros i d ? ? ?. apply He. exists d. split; [|done].
        apply elem_of_sets_with_bit_get. eauto.
    + intros (? & Hi & He). split; [split; [done|]|].
      * intros d (i & ? & ?)%elem_of_sets_with_bit_get. eauto.
      * intros (d & (i & ? & ?)%elem_of_sets_with_bit_get & ?).
        by eapply He.
  - intros Hones.
    assert (bs = replicate (length datasets) true) as Hrep.
    { apply logic_of_bits_inj. by rewrite <- Hbs, Hones, repeat_one_bits. }
    assert (excluded = []) as Hexc.
    { apply elem_of_nil_inv. intros d. subst excluded. rewrite Hbs.
      intros (i & _ & Hb)%(elem_of_sets_with_bit datasets bs false).
      rewrite Hrep in Hb. by apply lookup_replicate in Hb as [? _]. }
    split; [done|]. split; [by rewrite Hexc|].
    rewrite (petal_set_Ok datasets U logic Hlogic). f_equal.
    apply set_eq. intros x. subst logic.
    rewrite (elem_of_petal datasets U bs x HU Hlen Ht).
    apply set_union_Ok in HU as [Hne _].
    rewrite elem_of_intersection_of by done. rewrite Hrep. split.
    + intros Hsig d (i & Hd)%list_elem_of_lookup_1.
      assert (signature datasets x !! i = Some true) as Hi.
      { rewrite <- Hsig. apply lookup_replicate. split; [done|].
        by eapply lookup_lt_Some. }
      unfold signature in Hi. rewrite list_lookup_fmap, Hd in Hi.
      injection Hi as Hi. by eapply bool_decide_eq_true_1.
    + intros Hall. apply list_eq. intros i.
      unfold signature. rewrite list_lookup_fmap.
      destruct (datasets !! i) as [d|] eqn:Hd; simpl.
      * rewrite bool_decide_eq_true_2
          by (apply Hall; by eapply list_elem_of_lookup_2).
        apply lookup_replicate. split; [done|]. by eapply lookup_lt_Some.
      * apply lookup_ge_None. rewrite length_replicate.
        by apply lookup_ge_None in Hd.
Qed.

End petal_sets.

(** ** The mapping returned by [generate_petals] *)

Lemma default_fmt_total : total_template default_fmt.
Proof. intros logic size percentage. by eexists. Qed.

Section mapping.
Context `{Countable K}.
Implicit Types (datasets : list (gset K)) (U : gset K).

Lemma petal_step_Ok datasets U fmt petals logic :
  len U ≠ 0%Z → total_template fmt →
  logic ∈ generate_logics (length datasets) →
  ∃ desc, entry_of datasets U fmt logic desc
    ∧ petal_step datasets U (len U) fmt petals logic
      = Ok (<[logic := desc]> petals).
Proof.
  intros HU Hfmt Hlogic. unfold petal_step, entry_of.
  rewrite petal_set_Ok, bind_Ok by done.
  unfold PyFloat.truediv. rewrite bool_decide_eq_false_2 by done.
  rewrite bind_Ok.
  destruct (Hfmt logic (len (petal datasets U logic))
    (SFdiv PyFloat.prec PyFloat.emax
       (PyFloat.of_int (100 * len (petal datasets U logic)))
       (PyFloat.of_int (len U)))) as [desc Hdesc].
  exists desc. rewrite Hdesc. eauto.
Qed.

Lemma for_each_petal_step datasets U fmt logics petals :
  len U ≠ 0%Z → total_template fmt → NoDup logics →
  (∀ logic, logic ∈ logics → logic ∈ generate_logics (length datasets)) →
  ∃ petals',
    for_each (petal_step datasets U (len U) fmt) logics petals = Ok petals'
    ∧ (∀ logic, logic ∉ logics → petals' !! logic = petals !! logic)
    ∧ (∀ logic, logic ∈ logics →
         ∃ desc, entry_of datasets U fmt logic desc
           ∧ petals' !! logic = Some desc).
Proof.
  intros HU Hfmt Hnd. revert petals.
  induction Hnd as [|logic logics Hnotin Hnd IH]; intros petals Hin.
  - exists petals. split; [done|]. split; [done|].
    intros logic Hl. by apply elem_of_nil in Hl.
  - destruct (petal_step_Ok datasets U fmt petals logic HU Hfmt)
      as (desc & Hentry & Hstep); [apply Hin; left|].
    destruct (IH (<[logic := desc]> petals)) as (petals' & Hloop & Hout & Hins).
    { intros l ?. apply Hin. by right. }
    exists petals'. simpl. rewrite Hstep, bind_Ok.
    split; [done|]. split.
    + intros l [Hne Hl]%not_elem_of_cons.
      rewrite Hout by done. by rewrite lookup_insert_ne.
    + intros l [->|Hl]%elem_of_cons; [|by apply Hins].
      exists desc. split; [done|].
      rewrite Hout by done. by rewrite lookup_insert_eq.
Qed.

Lemma len_nonzero U : U ≠ ∅ → len U ≠ 0%Z.
Proof.
  intros HU Hlen. apply HU. unfold len in Hlen.
  apply leibniz_equiv, size_empty_iff. lia.
Qed.

(** [generate_petals] returns a mapping whenever the Universe is not
    empty and the template formats every argument: the loop neither
    fails on a pattern nor divides by zero, and its result has exactly
    one entry per enumerated pattern. *)
Lemma generate_petals_Ok datasets U fmt :
  set_union datasets = Ok U → U ≠ ∅ → total_template fmt →
  ∃ petals,
    generate_petals datasets fmt = Ok petals
    ∧ (∀ logic, logic ∉ generate_logics (length datasets) →
         petals !! logic = None)
    ∧ (∀ logic, logic ∈ generate_logics (length datasets) →
         ∃ desc, entry_of datasets U fmt logic desc
           ∧ petals !! logic = Some desc).
Proof.
  intros HU Hne Hfmt. unfold generate_petals. rewrite HU, bind_Ok.
  destruct (for_each_petal_step datasets U fmt
    (generate_logics (length datasets)) ∅)
    as (petals & Hloop & Hout & Hin);
    [by apply len_nonzero|done|apply NoDup_generate_logics|done|].
  exists petals. split; [done|]. split; [|done].
  intros logic Hl. by rewrite Hout.
Qed.

Lemma generate_petals_dom datasets (petals : gmap string string) :
  (∀ logic, logic ∉ generate_logics (length datasets) →
     petals !! logic = None) →
  (∀ logic, logic ∈ generate_logics (length datasets) →
     is_Some (petals !! logic)) →
  dom petals =@{gset string} list_to_set (generate_logics (length datasets)).
Proof.
  intros Hout Hin. apply set_eq. intros logic.
  rewrite elem_of_dom, elem_of_list_to_set. split.
  - intros Hsome.
    destruct (decide (logic ∈ generate_logics (length datasets))) as [|Hn];
      [done|]. rewrite Hout in Hsome by done. by destruct Hsome.
  - apply Hin.
Qed.

(** C4. For every sequence of N datasets with non-empty union (and a
    template that formats its arguments), [generate_petals] returns a
    mapping whose key set is exactly the set of the patterns of
    [generate_logics N]: every enumerated pattern is a key and no other
    string is. *)
Theorem generate_petals_keys datasets U fmt :
  set_union datasets = Ok U → U ≠ ∅ → total_template fmt →
  ∃ petals,
    generate_petals datasets fmt = Ok petals
    ∧ dom petals
      =@{gset string} list_to_set (generate_logics (length datasets))
    ∧ (∀ logic, is_Some (petals !! logic)
         ↔ logic ∈ generate_logics (length datasets)).
Proof.
  intros HU Hne Hfmt.
  destruct (generate_petals_Ok datasets U fmt HU Hne Hfmt)
    as (petals & Hret & Hout & Hin).
  assert (∀ logic, logic ∈ generate_logics (length datasets) →
    is_Some (petals !! logic)) as Hin'.
  { intros logic (desc & _ & ->)%Hin. by eexists. }
  exists petals. split; [done|]. split; [by apply generate_petals_dom|].
  intros logic. split; [|by apply Hin'].
  intros Hsome.
  destruct (decide (logic ∈ generate_logics (length datasets))) as [|Hn];
    [done|]. rewrite Hout in Hsome by done. by destruct Hsome.
Qed.

Lemma generate_logics_cons n :
  0 < n → ∃ logic logics, generate_logics n = logic :: logics.
Proof.
  intros Hn. pose proof (length_generate_logics n) as Hlen.
  assert (2 ^ 1 ≤ 2 ^ n) by (apply Nat.pow_le_mono_r; lia).
  destruct (generate_logics n) as [|logic logics]; [simpl in *; lia|].
  eauto.
Qed.

(** C5, as the code has it. When every supplied dataset is empty, so
    that the Universe is empty, [generate_petals] returns no mapping,
    whatever the template: with at least one dataset the percentage
    division of the first pattern raises the built-in
    [ZeroDivisionError]; with no dataset at all the union itself raises
    [TypeError]. There is no dedicated check of the Universe. *)
Theorem generate_petals_empty_universe datasets fmt :
  (∀ d, d ∈ datasets → d = ∅) →
  generate_petals datasets fmt
  = Raise (match datasets with
           | [] => TypeError
           | _ :: _ => ZeroDivisionError
           end).
Proof.
  intros Hempty. destruct datasets as [|d0 others]; [done|].
  cbv iota. remember (d0 :: others) as datasets eqn:Hd.
  assert (datasets ≠ []) as Hne by (by subst).
  clear d0 others Hd.
  destruct (set_union datasets) as [U|e] eqn:HU; [|by destruct datasets].
  pose proof (set_union_Ok _ _ HU) as [_ HUx].
  assert (U = ∅) as ->.
  { apply set_eq. intros x. rewrite HUx. split.
    - intros (d & ->%Hempty & Hx). done.
    - intros Hx. by apply not_elem_of_empty in Hx. }
  destruct (generate_logics_cons (length datasets)) as (logic & logics & Hl).
  { destruct datasets; [done|simpl; lia]. }
  assert (logic ∈ generate_logics (length datasets)) as Hin
    by (rewrite Hl; left).
  unfold generate_petals.
  rewrite HU, bind_Ok, Hl. simpl for_each.
  assert (petal_step datasets ∅ (len ∅) fmt ∅ logic = Raise ZeroDivisionError)
    as ->; [|done].
  unfold petal_step. by rewrite petal_set_Ok, bind_Ok.
Qed.

End mapping.

Lemma generate_petals_keys_witness :
  ∃ petals,
    generate_petals [({[1; 2; 3]} : gset Z); {[2; 3; 4]}]%Z default_fmt
    = Ok petals
    ∧ dom petals =@{gset string} list_to_set (generate_logics 2).
Proof.
  destruct (generate_petals_keys [({[1; 2; 3]} : gset Z); {[2; 3; 4]}]%Z
    {[1; 2; 3; 4]}%Z default_fmt) as (petals & Hret & Hdom & _).
  - vm_compute. reflexivity.
  - intros Hempty. apply (f_equal size) in Hempty. vm_compute in Hempty. lia.
  - exact default_fmt_total.
  - exists petals. split; [exact Hret|exact Hdom].
Defined.

(** ** The petal sets of the loop of [generate_petals]: claims C1 and C3 *)

Section loop_petals.
Context `{Countable K}.
Implicit Types (datasets : list (gset K)) (U : gset K).

(** C1. For every sequence of N datasets with non-empty union (and a
    template that formats its arguments), [generate_petals] returns its
    mapping, and the petal sets its loop computes, one per pattern of
    [generate_logics N] and in that order, are those whose sizes the
    mapping describes: the value stored under a pattern is the template
    applied to the pattern, to the size of its petal set and to that size
    as a percentage of the Universe. These petal sets are pairwise
    disjoint, their union is the Universe, every element of the Universe
    is in exactly one of them, and their sizes add up to the size of the
    Universe. *)
Theorem petals_partition datasets U fmt :
  set_union datasets = Ok U → U ≠ ∅ → total_template fmt →
  ∃ (petals : gmap string string) (ps : list (gset K)),
    generate_petals datasets fmt = Ok petals
    ∧ length ps = length (generate_logics (length datasets))
    ∧ size petals = length ps
    ∧ (∀ k logic p,
         generate_logics (length datasets) !! k = Some logic →
         ps !! k = Some p →
         petal_set datasets U logic = Ok p
         ∧ ∃ percentage desc,
             PyFloat.truediv (100 * len p) (len U) = Ok percentage
             ∧ fmt logic (len p) percentage = Ok desc
             ∧ petals !! logic = Some desc)
    ∧ (∀ i j p q, i ≠ j → ps !! i = Some p → ps !! j = Some q → p ## q)
    ∧ ⋃ ps = U
    ∧ (∀ x, x ∈ U →
         ∃ i p, ps !! i = Some p ∧ x ∈ p
           ∧ ∀ j q, ps !! j = Some q → x ∈ q → j = i)
    ∧ sum_list (size <$> ps) = size U.
Proof.
  intros HU Hne Hfmt.
  destruct (generate_petals_Ok datasets U fmt HU Hne Hfmt)
    as (petals & Hret & Hout & Hin).
  destruct (petal_sets_partition datasets U HU)
    as (_ & Hlen & Hdisj & Hcover & Hone & Hsum).
  exists petals, (petal datasets U <$> generate_logics (length datasets)).
  split; [done|]. split; [done|]. split; [|split; [|done]].
  - rewrite Hlen, <- (size_dom (D:=gset string)).
    rewrite (generate_petals_dom datasets petals Hout).
    + by rewrite size_list_to_set by apply NoDup_generate_logics.
    + intros logic (desc & _ & ->)%Hin. by eexists.
  - intros k logic p Hk. rewrite list_lookup_fmap, Hk. intros [= <-].
    assert (logic ∈ generate_logics (length datasets)) as Hl
      by (by eapply list_elem_of_lookup_2).
    split; [by apply petal_set_Ok|].
    destruct (Hin logic Hl) as (desc & (pct & Hpct & Hdesc) & Hlook).
    by exists pct, desc.
Qed.

(** C3. For every sequence of N datasets with non-empty union (and a
    template that formats its arguments), [generate_petals] returns its
    mapping, and for every pattern P produced the petal set its loop
    computes is the Universe intersected with the intersection of the
    datasets whose bit in P is 1, minus the union of the datasets whose
    bit in P is 0: the two selections raise nothing, the first is not
    empty, the elements of the petal are those of the Universe that are
    in every dataset whose bit is 1 and in no dataset whose bit is 0, and
    the value the mapping stores under P is the template applied to P and
    to the size of this set. The all-ones pattern is produced; for it no
    dataset is excluded, the set subtracted is the empty set, the petal is
    the intersection of all datasets, and the mapping describes the size
    of that intersection. *)
Theorem petal_set_formula datasets U fmt :
  set_union datasets = Ok U → U ≠ ∅ → total_template fmt →
  ∃ petals : gmap string string,
    generate_petals datasets fmt = Ok petals
    ∧ (∀ logic, logic ∈ generate_logics (length datasets) →
         let included := sets_with_bit datasets logic "1"%char in
         let excluded := sets_with_bit datasets logic "0"%char in
         let petal_of_logic := (U ∩ intersection_of included) ∖ ⋃ excluded in
         select_sets datasets (length datasets) logic "1"%char = Ok included
         ∧ select_sets datasets (length datasets) logic "0"%char = Ok excluded
         ∧ included ≠ []
         ∧ petal_set datasets U logic = Ok petal_of_logic
         ∧ (∀ x, x ∈ petal_of_logic ↔
              x ∈ U
              ∧ (∀ i d, datasets !! i = Some d →
                   String.get i logic = Some "1"%char → x ∈ d)
              ∧ (∀ i d, datasets !! i = Some d →
                   String.get i logic = Some "0"%char → x ∉ d))
         ∧ ∃ percentage desc,
             PyFloat.truediv (100 * len petal_of_logic) (len U)
               = Ok percentage
             ∧ fmt logic (len petal_of_logic) percentage = Ok desc
             ∧ petals !! logic = Some desc)
    ∧ (let ones := PyStr.repeat "1"%char (length datasets) in
       ones ∈ generate_logics (length datasets)
       ∧ sets_with_bit datasets ones "0"%char = []
       ∧ set_union (∅ :: sets_with_bit datasets ones "0"%char) = Ok ∅
       ∧ petal_set datasets U ones = Ok (intersection_of datasets)
       ∧ ∃ percentage desc,
           PyFloat.truediv (100 * len (intersection_of datasets)) (len U)
             = Ok percentage
           ∧ fmt ones (len (intersection_of datasets)) percentage = Ok desc
           ∧ petals !! ones = Some desc).
Proof.
  intros HU Hne Hfmt.
  destruct (generate_petals_Ok datasets U fmt HU Hne Hfmt)
    as (petals & Hret & Hout & Hin).
  exists petals. split; [done|]. split.
  - intros logic Hl included excluded petal_of_logic.
    destruct (petal_set_formula_sets datasets U logic HU Hl)
      as (Hsel1 & Hsel0 & Hinc & Hps & Hmem & _).
    do 5 (split; [done|]).
    destruct (Hin logic Hl) as (desc & (pct & Hpct & Hdesc) & Hlook).
    by exists pct, desc.
  - intros ones.
    assert (ones ∈ generate_logics (length datasets)) as Hones
      by (apply all_ones_logic; by apply set_union_Ok in HU as [? _]).
    destruct (petal_set_formula_sets datasets U ones HU Hones)
      as (_ & _ & _ & _ & _ & _ & Hall).
    destruct (Hall eq_refl) as (Hexc & Hempty & Hpetal).
    do 4 (split; [done|]).
    destruct (Hin ones Hones) as (desc & (pct & Hpct & Hdesc) & Hlook).
    assert (petal datasets U ones = intersection_of datasets) as Heq.
    { rewrite (petal_set_Ok datasets U ones Hones) in Hpetal.
      by injection Hpetal. }
    rewrite Heq in Hpct, Hdesc. by exists pct, desc.
Qed.

End loop_petals.

Lemma petals_partition_witness :
  ∃ (petals : gmap string string) (ps : list (gset Z)),
    generate_petals [{[1; 2; 3]}; {[2; 3; 4]}]%Z default_fmt = Ok petals
    ∧ size petals = length ps
    ∧ ⋃ ps = {[1; 2; 3; 4]}%Z
    ∧ sum_list (size <$> ps) = 4.
Proof.
  destruct (petals_partition [{[1; 2; 3]}; {[2; 3; 4]}]%Z {[1; 2; 3; 4]}%Z
    default_fmt) as (petals & ps & Hret & _ & Hsize & _ & _ & Hcover & _ & Hsum).
  - vm_compute. reflexivity.
  - intros Hempty. apply (f_equal size) in Hempty. vm_compute in Hempty. lia.
  - exact default_fmt_total.
  - exists petals, ps. split; [exact Hret|]. split; [exact Hsize|].
    split; [exact Hcover|]. rewrite Hsum. vm_compute. reflexivity.
Defined.

Lemma petal_set_formula_witness :
  ∃ petals : gmap string string,
    generate_petals [{[1; 2; 3]}; {[2; 3; 4]}]%Z default_fmt = Ok petals
    ∧ petal_set [{[1; 2; 3]}; {[2; 3; 4]}]%Z ({[1; 2; 3; 4]}%Z : gset Z) "11"
      = Ok (intersection_of [{[1; 2; 3]}; {[2; 3; 4]}]%Z).
Proof.
  destruct (petal_set_formula [{[1; 2; 3]}; {[2; 3; 4]}]%Z
    ({[1; 2; 3; 4]}%Z : gset Z) default_fmt)
    as (petals & Hret & _ & _ & _ & _ & Hpetal & _).
  - vm_compute. reflexivity.
  - intros Hempty. apply (f_equal size) in Hempty. vm_compute in Hempty. lia.
  - exact default_fmt_total.
  - exists petals. split; [exact Hret|exact Hpetal].
Defined.

Lemma generate_petals_two_empty :
  generate_petals [(∅ : gset Z); ∅] default_fmt = Raise ZeroDivisionError.
Proof. vm_compute. reflexivity. Qed.

(** C5, as the claim has it, fails: for two empty datasets the exception
    is not one that the module raises explicitly. *)
Lemma empty_universe_error_not_explicit :
  ¬ ∃ e, generate_petals [(∅ : gset Z); ∅] default_fmt = Raise e
         ∧ explicit_error e.
Proof.
  intros (e & He & msg & ->). rewrite generate_petals_two_empty in He.
  discriminate He.
Qed.

Lemma generate_petals_empty_universe_witness :
  (∀ d, d ∈ [(∅ : gset Z); ∅] → d = ∅)
  ∧ generate_petals [(∅ : gset Z); ∅] default_fmt = Raise ZeroDivisionError.
Proof.
  assert (∀ d, d ∈ [(∅ : gset Z); ∅] → d = ∅) as Hempty.
  { intros d Hd. repeat (apply elem_of_cons in Hd as [->|Hd]; [done|]).
    by apply elem_of_nil in Hd. }
  split; [exact Hempty|].
  exact (generate_petals_empty_universe [(∅ : gset Z); ∅] default_fmt Hempty).
Defined.

(** C7. For the datasets {1,2,3} and {2,3,4} and the default template the
    Universe is {1,2,3,4}, of size 4, the petals of the patterns 10, 01
    and 11 are {1}, {4} and {2,3}, and the mapping returned is
    10 -> 1 (25.0%), 01 -> 1 (25.0%), 11 -> 2 (50.0%). *)
Theorem generate_petals_two_overlapping :
  let datasets : list (gset Z) := [{[1; 2; 3]}; {[2; 3; 4]}]%Z in
  let U : gset Z := {[1; 2; 3; 4]}%Z in
  set_union datasets = Ok U
  ∧ len U = 4%Z
  ∧ generate_logics (length datasets) = ["01"; "10"; "11"]
  ∧ petal_set datasets U "10" = Ok {[1%Z]}
  ∧ petal_set datasets U "01" = Ok {[4%Z]}
  ∧ petal_set datasets U "11" = Ok {[2; 3]}%Z
  ∧ generate_petals datasets default_fmt
    = Ok {[ "10" := "1 (25.0%)"; "01" := "1 (25.0%)"; "11" := "2 (50.0%)" ]}.
Proof. vm_compute. repeat split; reflexivity. Qed.

(** ** The checks of [venn] *)

Lemma check_petal_keys_Ok keys n :
  Forall (λ k, String.length k = n) keys → check_petal_keys keys n = Ok ().
Proof.
  unfold check_petal_keys. induction 1 as [|k keys Hk _ IH]; simpl; [done|].
  by rewrite bool_decide_eq_false_2 by (by intros []).
Qed.

Lemma check_petal_keys_Raise keys n :
  ¬ Forall (λ k, String.length k = n) keys →
  check_petal_keys keys n = Raise (ValueError inconsistent_labels).
Proof.
  unfold check_petal_keys. induction keys as [|k keys IH]; intros Hn; simpl.
  - destruct Hn. constructor.
  - case_bool_decide as Hk; [done|]. simpl. apply IH.
    intros Hall. apply Hn. constructor; [|done].
    by destruct (decide (String.length k = n)).
Qed.

Lemma elem_of_petal_keys (petals : gmap string string) k :
  k ∈ (map_to_list petals).*1 ↔ is_Some (petals !! k).
Proof.
  rewrite list_elem_of_fmap. split.
  - intros ([k' v] & -> & Hkv%elem_of_map_to_list). by eexists.
  - intros [v Hv]. exists (k, v). split; [done|]. by apply elem_of_map_to_list.
Qed.

Lemma choose_shape_out_of_range n :
  n < 2 ∨ 6 < n → choose_shape n = Raise (ValueError invalid_cardinality).
Proof.
  intros Hn. unfold choose_shape.
  rewrite bool_decide_eq_false_2 by lia.
  by rewrite bool_decide_eq_false_2 by lia.
Qed.

Section venn_checks.
Variables colorspec opacity rgba coords dims angle point : Type.
Variable to_rgba : colorspec → opacity → result rgba.
Variable sample_cmap : string → nat → opacity → result (list rgba).
Variable SHAPE_COORDS : nat → option (list coords).
Variable SHAPE_DIMS : nat → option (list dims).
Variable SHAPE_ANGLES : nat → option (list angle).
Variable PETAL_LABEL_COORDS : nat → option (list (string * point)).
Variable ax_legend :
  axes rgba coords dims angle point → list string → string → Z →
  result (axes rgba coords dims angle point).

Local Abbreviation venn_ :=
  (venn to_rgba sample_cmap SHAPE_COORDS SHAPE_DIMS SHAPE_ANGLES
     PETAL_LABEL_COORDS ax_legend).
Local Abbreviation ax_t := (axes rgba coords dims angle point).

Implicit Types (petals : gmap string string) (labels : list string)
  (cmap : cmap_arg colorspec) (alpha : opacity) (fontsize : Z)
  (legend_loc : option string) (ax : option ax_t).

Lemma venn_key_length petals labels cmap alpha fontsize legend_loc ax :
  (∃ logic, is_Some (petals !! logic)
     ∧ String.length logic ≠ length labels) →
  venn_ petals labels cmap alpha fontsize legend_loc ax
  = (init_axes ax, Raise (ValueError inconsistent_labels)).
Proof.
  intros (logic & Hk%elem_of_petal_keys & Hlen). unfold venn.
  rewrite check_petal_keys_Raise; [done|].
  intros Hall. rewrite Forall_forall in Hall. by apply Hlen, Hall.
Qed.

Lemma venn_cardinality petals labels cmap alpha fontsize legend_loc ax :
  (∀ logic, is_Some (petals !! logic) → String.length logic = length labels) →
  length labels < 2 ∨ 6 < length labels →
  venn_ petals labels cmap alpha fontsize legend_loc ax
  = (init_axes ax, Raise (ValueError invalid_cardinality)).
Proof.
  intros Hkeys Hn. unfold venn.
  rewrite check_petal_keys_Ok, bind_Ok.
  - by rewrite choose_shape_out_of_range.
  - apply Forall_forall. intros k Hk%elem_of_petal_keys. by apply Hkeys.
Qed.

(** C6. A number of labels outside [2,6], for instance 1 or 7, makes
    [venn] raise [ValueError], the validation error of the module, before
    anything is drawn: no figure is returned and the axes are as they
    were. The message is the one about the number of sets whenever the
    keys of the mapping have as many characters as there are labels,
    and otherwise the one about inconsistent labels. *)
Theorem venn_invalid_cardinality petals labels cmap alpha fontsize
    legend_loc ax :
  length labels < 2 ∨ 6 < length labels →
  ∃ msg,
    venn_ petals labels cmap alpha fontsize legend_loc ax
    = (init_axes ax, Raise (ValueError msg))
    ∧ (msg = invalid_cardinality ∨ msg = inconsistent_labels)
    ∧ ((∀ logic, is_Some (petals !! logic) →
          String.length logic = length labels) →
       msg = invalid_cardinality).
Proof.
  intros Hn.
  destruct (decide (Forall (λ k, String.length k = length labels)
                      (map_to_list petals).*1)) as [Hall|Hnall].
  - exists invalid_cardinality. split; [|by auto].
    apply venn_cardinality; [|done].
    intros k Hk%elem_of_petal_keys. rewrite Forall_forall in Hall. auto.
  - exists inconsistent_labels. split; [|split; [by auto|]].
    + unfold venn. by rewrite check_petal_keys_Raise.
    + intros Hkeys. destruct Hnall. apply Forall_forall.
      intros k Hk%elem_of_petal_keys. auto.
Qed.

Local Ltac wrong_length Hall :=
  let k := fresh "k" in
  let Hk := fresh "Hk" in
  let Hl := fresh "Hl" in
  intros (k & Hk%elem_of_petal_keys & Hl);
  destruct Hl; by apply (proj1 (Forall_forall _ _) Hall).

Lemma draw_labels_missing petals (items : list (string * point)) fontsize
    (a : ax_t) :
  (∃ logic, logic ∈ items.*1 ∧ petals !! logic = None) →
  ∃ a' k, draw_labels petals items fontsize a = (a', Raise (KeyError k))
    ∧ k ∈ items.*1 ∧ petals !! k = None.
Proof.
  revert a. induction items as [|[logic xy] items IH]; intros a (k & Hk & Hnone).
  - by apply elem_of_nil in Hk.
  - simpl. destruct (petals !! logic) as [text|] eqn:Hl.
    + destruct (IH (a ++ [Text xy text fontsize])) as (a' & k' & -> & ? & ?).
      { exists k. split; [|done].
        apply elem_of_cons in Hk as [->|?]; [|done]. simpl in Hnone. congruence. }
      exists a', k'. split; [done|]. split; [by right|done].
    + exists a, logic. split; [done|]. split; [left|done].
Qed.

(** C8, as the code has it. A key of the petal mapping whose length is
    not the number of labels makes [venn] raise [ValueError] before
    anything is drawn. A pattern of the layout table that the petal
    mapping lacks makes [venn] raise too, so that no figure is returned;
    when the earlier steps succeed, the exception is the [KeyError] of
    that lookup, raised while the labels are drawn. *)
Theorem venn_pattern_mismatch petals labels cmap alpha fontsize legend_loc
    ax :
  (∃ logic, is_Some (petals !! logic)
     ∧ String.length logic ≠ length labels)
  ∨ (∃ items logic, PETAL_LABEL_COORDS (length labels) = Some items
       ∧ logic ∈ items.*1 ∧ petals !! logic = None) →
  ∃ e,
    (venn_ petals labels cmap alpha fontsize legend_loc ax).2 = Raise e
    ∧ ((∃ logic, is_Some (petals !! logic)
          ∧ String.length logic ≠ length labels) →
       venn_ petals labels cmap alpha fontsize legend_loc ax
       = (init_axes ax, Raise (ValueError inconsistent_labels)))
    ∧ ((∀ logic, is_Some (petals !! logic) →
          String.length logic = length labels) →
       is_Ok (choose_shape (length labels)) →
       is_Ok (select_colors to_rgba sample_cmap (length labels) cmap alpha) →
       is_Some (SHAPE_COORDS (length labels)) →
       is_Some (SHAPE_DIMS (length labels)) →
       is_Some (SHAPE_ANGLES (length labels)) →
       ∃ items k, PETAL_LABEL_COORDS (length labels) = Some items
         ∧ k ∈ items.*1 ∧ petals !! k = None ∧ e = KeyError k).
Proof.
  intros Hmis.
  destruct (decide (Forall (λ k, String.length k = length labels)
                      (map_to_list petals).*1)) as [Hall|Hnall].
  - destruct Hmis as [(logic & Hk%elem_of_petal_keys & Hlen)|Hmis].
    { destruct Hlen. by apply (proj1 (Forall_forall _ _) Hall). }
    destruct Hmis as (items & logic & Hitems & Hin & Hnone).
    unfold venn. rewrite check_petal_keys_Ok, bind_Ok by done.
    unfold is_Ok, table_lookup. rewrite Hitems.
    destruct (choose_shape (length labels)) as [kind|e1]; simpl.
    2:{ exists e1. split; [done|]. split.
        - wrong_length Hall.
        - by intros _ [? ?]. }
    destruct (select_colors to_rgba sample_cmap (length labels) cmap alpha)
      as [colors|e2]; simpl.
    2:{ exists e2. split; [done|]. split.
        - wrong_length Hall.
        - by intros _ _ [? ?]. }
    destruct (SHAPE_COORDS (length labels)) as [sc|]; simpl.
    2:{ eexists. split; [done|]. split.
        - wrong_length Hall.
        - by intros _ _ _ [? ?]. }
    destruct (SHAPE_DIMS (length labels)) as [sd|]; simpl.
    2:{ eexists. split; [done|]. split.
        - wrong_length Hall.
        - by intros _ _ _ _ [? ?]. }
    destruct (SHAPE_ANGLES (length labels)) as [sa|]; simpl.
    2:{ eexists. split; [done|]. split.
        - wrong_length Hall.
        - by intros _ _ _ _ _ [? ?]. }
    destruct (draw_labels_missing petals items fontsize
      (draw_shapes kind (zip4 sc sd sa colors) (init_axes ax)))
      as (a' & k & Hdraw & Hk & Hknone); [by eauto|].
    rewrite Hdraw. exists (KeyError k). split; [done|]. split.
    + wrong_length Hall.
    + intros _ _ _ _ _ _. by exists items, k.
  - exists (ValueError inconsistent_labels).
    assert (venn_ petals labels cmap alpha fontsize legend_loc ax
      = (init_axes ax, Raise (ValueError inconsistent_labels))) as Hv.
    { unfold venn. by rewrite check_petal_keys_Raise. }
    rewrite Hv. split; [done|]. split; [done|].
    intros Hkeys. destruct Hnall. apply Forall_forall.
    intros k Hk%elem_of_petal_keys. auto.
Qed.

End venn_checks.

(** C8, as the claim has it, fails: the key 00 of the mapping has the
    length of a pattern of two datasets and is not a pattern of the layout
    table, and [venn] returns the figure all the same. *)
Lemma venn_extra_key_accepted :
  let petals : gmap string string :=
    {[ "00" := "0 (0.0%)"; "01" := "1 (25.0%)"; "10" := "1 (25.0%)";
       "11" := "2 (50.0%)" ]} in
  Demo.PETAL_LABEL_COORDS 2 = Some [("01", ()); ("10", ()); ("11", ())]
  ∧ is_Some (petals !! "00")
  ∧ ∃ figure, Demo.venn petals ["A"; "B"] = (figure, Ok figure).
Proof.
  split; [reflexivity|]. split; [by eexists|].
  eexists. vm_compute. reflexivity.
Qed.

Lemma venn_pattern_mismatch_witness :
  let petals : gmap string string :=
    {[ "01" := "1 (25.0%)"; "10" := "1 (25.0%)" ]} in
  ∃ e, (Demo.venn petals ["A"; "B"]).2 = Raise e.
Proof.
  destruct (venn_pattern_mismatch () () () () () () ()
    Demo.to_rgba Demo.sample_cmap Demo.SHAPES Demo.SHAPES Demo.SHAPES
    Demo.PETAL_LABEL_COORDS Demo.ax_legend
    {[ "01" := "1 (25.0%)"; "10" := "1 (25.0%)" ]} ["A"; "B"]
    (CmapName "viridis") () 13%Z (Some "upper right") None) as (e & He & _).
  - right. exists [("01", ()); ("10", ()); ("11", ())], "11".
    split; [reflexivity|]. split; [|reflexivity].
    do 2 right. left.
  - by exists e.
Defined.

Lemma venn_invalid_cardinality_witness :
  ∃ msg, Demo.venn ∅ ["A"] = ([], Raise (ValueError msg)).
Proof.
  destruct (venn_invalid_cardinality () () () () () () ()
    Demo.to_rgba Demo.sample_cmap Demo.SHAPES Demo.SHAPES Demo.SHAPES
    Demo.PETAL_LABEL_COORDS Demo.ax_legend ∅ ["A"]
    (CmapName "viridis") () 13%Z (Some "upper right") None) as (msg & Hv & _).
  - left. simpl. lia.
  - by exists msg.
Defined.

Example venn_one_label :
  Demo.venn {[ "1" := "3 (100.0%)" ]} ["A"]
  = ([], Raise (ValueError invalid_cardinality)).
Proof. vm_compute. reflexivity. Qed.

Example venn_seven_labels :
  Demo.venn ∅ ["A"; "B"; "C"; "D"; "E"; "F"; "G"]
  = ([], Raise (ValueError invalid_cardinality)).
Proof. vm_compute. reflexivity. Qed.

Example venn_missing_pattern :
  ∃ drawn,
    Demo.venn {[ "01" := "1 (25.0%)"; "10" := "1 (25.0%)" ]} ["A"; "B"]
    = (drawn, Raise (KeyError "11")) ∧ length drawn = 4.
Proof. eexists. vm_compute. split; reflexivity. Qed.

(** ** The number of datasets is checked by [venn] only *)

Section cardinality.
Context `{Countable K}.
Variables colorspec opacity rgba coords dims angle point : Type.
Variable to_rgba : colorspec → opacity → result rgba.
Variable sample_cmap : string → nat → opacity → result (list rgba).
Variable SHAPE_COORDS : nat → option (list coords).
Variable SHAPE_DIMS : nat → option (list dims).
Variable SHAPE_ANGLES : nat → option (list angle).
Variable PETAL_LABEL_COORDS : nat → option (list (string * point)).
Variable ax_legend :
  axes rgba coords dims angle point → list string → string → Z →
  result (axes rgba coords dims angle point).

(** C10. [generate_petals] does not look at the number of datasets: for
    every sequence of N >= 1 datasets with non-empty union (and a
    template that formats its arguments), whatever N is, it returns a
    mapping with exactly 2^N - 1 entries, whose keys have N characters.
    It is [venn] that rejects this mapping, with the [ValueError] about
    the number of sets, when it comes with N labels and N is outside
    [2,6]. *)
Theorem generate_petals_any_cardinality (datasets : list (gset K))
    (U : gset K) (fmt : template) :
  set_union datasets = Ok U → U ≠ ∅ → total_template fmt →
  ∃ petals,
    generate_petals datasets fmt = Ok petals
    ∧ size petals = 2 ^ length datasets - 1
    ∧ (∀ logic, is_Some (petals !! logic) →
         String.length logic = length datasets)
    ∧ ∀ labels cmap alpha fontsize legend_loc
        (ax : option (axes rgba coords dims angle point)),
        length labels = length datasets →
        length datasets < 2 ∨ 6 < length datasets →
        venn to_rgba sample_cmap SHAPE_COORDS SHAPE_DIMS SHAPE_ANGLES
          PETAL_LABEL_COORDS ax_legend petals labels cmap alpha fontsize legend_loc ax
        = (init_axes ax, Raise (ValueError invalid_cardinality)).
Proof.
  intros HU Hne Hfmt.
  destruct (generate_petals_Ok datasets U fmt HU Hne Hfmt)
    as (petals & Hret & Hout & Hin).
  assert (∀ logic, is_Some (petals !! logic) →
    String.length logic = length datasets) as Hkeys.
  { intros logic Hsome.
    destruct (decide (logic ∈ generate_logics (length datasets)))
      as [(bs & -> & Hlen & _)%elem_of_generate_logics|Hn].
    - by rewrite length_logic_of_bits.
    - rewrite Hout in Hsome by done. by destruct Hsome. }
  exists petals. split; [done|]. split; [|split; [done|]].
  - rewrite <- (size_dom (D:=gset string)).
    rewrite (generate_petals_dom datasets petals Hout).
    + rewrite size_list_to_set by apply NoDup_generate_logics.
      apply length_generate_logics.
    + intros logic (desc & _ & ->)%Hin. by eexists.
  - intros labels cmap alpha fontsize legend_loc ax Hlen Hrange.
    apply venn_cardinality; rewrite Hlen; done.
Qed.

End cardinality.

Lemma generate_petals_any_cardinality_witness :
  ∃ petals,
    generate_petals [({[1; 2; 3]} : gset Z)]%Z default_fmt = Ok petals
    ∧ size petals = 1
    ∧ Demo.venn petals ["A"] = ([], Raise (ValueError invalid_cardinality)).
Proof.
  destruct (generate_petals_any_cardinality () () () () () () ()
    Demo.to_rgba Demo.sample_cmap Demo.SHAPES Demo.SHAPES Demo.SHAPES
    Demo.PETAL_LABEL_COORDS Demo.ax_legend
    [({[1; 2; 3]} : gset Z)]%Z {[1; 2; 3]}%Z
    default_fmt) as (petals & Hret & Hsize & _ & Hvenn).
  - reflexivity.
  - intros Hempty. apply (f_equal size) in Hempty. vm_compute in Hempty. lia.
  - exact default_fmt_total.
  - exists petals. split; [exact Hret|]. split; [exact Hsize|].
    apply (Hvenn ["A"]); [reflexivity|left; simpl; lia].
Defined.

Example generate_petals_one_dataset :
  generate_petals [({[1; 2; 3]} : gset Z)]%Z default_fmt
  = Ok {[ "1" := "3 (100.0%)" ]}.
Proof. vm_compute. reflexivity. Qed.

Example generate_petals_seven_datasets :
  match
    generate_petals
      [({[1]} : gset Z); {[1; 2]}; {[1; 3]}; {[4]}; {[4; 5]}; {[6]}; {[1; 6; 7]}]%Z
      default_fmt
  with
  | Ok petals =>
      size petals = 127
      ∧ petals !! "1110001" = Some "1 (14.3%)"
      ∧ petals !! "0000001" = Some "1 (14.3%)"
      ∧ petals !! "1111111" = Some "0 (0.0%)"
  | Raise _ => False
  end.
Proof. vm_compute. repeat split; reflexivity. Qed.

(** ** [generate_petals] leaves its arguments alone *)

Lemma comprehension_map {A B B'} (g : B → B') (f : A → result (option B))
    (f' : A → result (option B')) (l : list A) :
  (∀ x, f' x = result_map (fmap g) (f x)) →
  comprehension f' l = result_map (fmap g) (comprehension f l).
Proof.
  intros Hf. induction l as [|x l IH]; simpl; [done|].
  rewrite Hf, IH. destruct (f x) as [[b|]|e]; simpl; [| |done];
    by destruct (comprehension f l).
Qed.

Lemma select_sets_map {A B} (g : A → B) (l : list A) n logic bit :
  select_sets (g <$> l) n logic bit
  = result_map (fmap g) (select_sets l n logic bit).
Proof.
  unfold select_sets. apply comprehension_map. intros i.
  destruct (PyStr.index logic i) as [c|e]; simpl; [|done].
  case_bool_decide; [|done].
  unfold list_index. rewrite list_lookup_fmap.
  by destruct (l !! i).
Qed.

Lemma comprehension_elem_of {A B} (P : B → Prop) (f : A → result (option B))
    (l : list A) (r : list B) :
  (∀ x b, f x = Ok (Some b) → P b) →
  comprehension f l = Ok r → Forall P r.
Proof.
  intros Hf. revert r. induction l as [|x l IH]; simpl; intros r.
  - intros [= <-]. constructor.
  - destruct (f x) as [o|e] eqn:Hx; simpl; [|done].
    destruct (comprehension f l) as [r'|e]; simpl; [|done].
    intros [= <-]. destruct o as [b|]; [|by apply IH].
    constructor; [by eapply Hf|by apply IH].
Qed.

Lemma select_sets_elem_of {A} (l : list A) n logic bit sel :
  select_sets l n logic bit = Ok sel → Forall (λ d, d ∈ l) sel.
Proof.
  apply comprehension_elem_of. intros i d.
  destruct (PyStr.index logic i) as [c|e]; simpl; [|done].
  case_bool_decide; [|done].
  unfold list_index. destruct (l !! i) as [d'|] eqn:Hi; simpl; [|done].
  intros [= <-]. by eapply list_elem_of_lookup_2.
Qed.

Section store_properties.
Context `{Countable K}.
Implicit Types (h : store K) (datasets : list ref).

Lemma read_old h ext r : r < length h → (h ++ ext) !!! r = h !!! r.
Proof. intros. by apply lookup_total_app_l. Qed.

Lemma read_new h (s : gset K) : (h ++ [s]) !!! length h = s.
Proof. by apply list_lookup_total_middle. Qed.

Lemma values_old h ext datasets :
  valid h datasets →
  ((h ++ ext) !!!.) <$> datasets = (h !!!.) <$> datasets.
Proof.
  intros Hv. apply Forall_fmap_ext. eapply Forall_impl; [exact Hv|].
  intros r Hr. by apply read_old.
Qed.

Lemma valid_old h ext datasets : valid h datasets → valid (h ++ ext) datasets.
Proof.
  intros Hv. eapply Forall_impl; [exact Hv|]. simpl.
  intros r Hr. rewrite length_app. lia.
Qed.

Lemma h_set_union_spec h datasets :
  h_set_union datasets h
  = match set_union ((h !!!.) <$> datasets) with
    | Ok s => (h ++ [s], Ok (length h))
    | Raise e => (h, Raise e)
    end.
Proof. by destruct datasets. Qed.

Lemma h_set_intersection_spec h datasets :
  h_set_intersection datasets h
  = match set_intersection ((h !!!.) <$> datasets) with
    | Ok s => (h ++ [s], Ok (length h))
    | Raise e => (h, Raise e)
    end.
Proof. by destruct datasets. Qed.

Lemma h_bind_Ok {A B} (m : heapM A) (f : A → heapM B) h h' a :
  m h = (h', Ok a) → h_bind m f h = f a h'.
Proof. unfold h_bind. by intros ->. Qed.

Lemma h_bind_Raise {A B} (m : heapM A) (f : A → heapM B) h h' e :
  m h = (h', Raise e) → h_bind m f h = (h', Raise e).
Proof. unfold h_bind. by intros ->. Qed.

(** The loop body on the store: it allocates five objects, the last of
    which is the petal set, or raises before it allocates anything. *)
Lemma petal_set_h_spec h datasets du logic :
  valid h datasets → du < length h →
  match petal_set ((h !!!.) <$> datasets) (h !!! du) logic with
  | Ok s =>
      ∃ ext p, petal_set_h datasets du logic h = (h ++ ext, Ok p)
        ∧ (h ++ ext) !!! p = s
  | Raise e => petal_set_h datasets du logic h = (h, Raise e)
  end.
Proof.
  intros Hv Hdu. unfold petal_set, petal_set_h. rewrite length_fmap.
  rewrite !select_sets_map.
  destruct (select_sets datasets (length datasets) logic "1")
    as [inc|e] eqn:Hinc; cbn [result_map]; [rewrite bind_Ok|done].
  rewrite (h_bind_Ok _ _ h h inc) by done.
  destruct (select_sets datasets (length datasets) logic "0")
    as [exc|e] eqn:Hexc; cbn [result_map]; [rewrite bind_Ok|done].
  rewrite (h_bind_Ok _ _ h h exc) by done.
  assert (valid h exc) as Hvexc.
  { apply select_sets_elem_of in Hexc. unfold valid in *.
    rewrite Forall_forall in *. auto. }
  pose proof (h_set_intersection_spec h inc) as Hi.
  destruct (set_intersection ((h !!!.) <$> inc)) as [inter|e];
    [rewrite bind_Ok|by rewrite (h_bind_Raise _ _ h h e)].
  set (h1 := h ++ [inter]) in *.
  rewrite (h_bind_Ok _ _ h h1 (length h)) by done.
  set (h2 := h1 ++ [h1 !!! du ∩ h1 !!! length h]).
  rewrite (h_bind_Ok _ _ h1 h2 (length h1)) by done.
  set (h3 := h2 ++ [∅]).
  rewrite (h_bind_Ok _ _ h2 h3 (length h2)) by done.
  assert (length h1 = length h + 1) as Hl1
    by (unfold h1; rewrite length_app; simpl; lia).
  assert (length h2 = length h + 2) as Hl2
    by (unfold h2; rewrite length_app; simpl; lia).
  assert (length h3 = length h + 3) as Hl3
    by (unfold h3; rewrite length_app; simpl; lia).
  assert (h1 !!! du = h !!! du) as Hdu1 by (by apply read_old).
  assert (h1 !!! length h = inter) as Hi1 by apply read_new.
  assert (h3 !!! length h2 = ∅) as He3 by apply read_new.
  assert ((h3 !!!.) <$> exc = (h !!!.) <$> exc) as Hexc3.
  { unfold h3, h2, h1. rewrite <- !app_assoc. by apply values_old. }
  pose proof (h_set_union_spec h3 (length h2 :: exc)) as Hu.
  rewrite fmap_cons, Hexc3, He3 in Hu. cbn [set_union] in *.
  rewrite bind_Ok.
  set (excl := foldl union ∅ ((h !!!.) <$> exc)) in *.
  set (h4 := h3 ++ [excl]) in *.
  rewrite (h_bind_Ok _ _ h3 h4 (length h3)) by done.
  assert (h4 !!! length h1 = h !!! du ∩ inter) as Hb4.
  { unfold h4, h3. rewrite !read_old by (rewrite ?length_app; simpl; lia).
    unfold h2. rewrite Hdu1, Hi1. apply read_new. }
  assert (h4 !!! length h3 = excl) as He4 by apply read_new.
  unfold h_sub, h_new. rewrite Hb4, He4.
  exists [inter; h1 !!! du ∩ h1 !!! length h; ∅; excl;
          (h !!! du ∩ inter) ∖ excl], (length h4).
  assert (h4 ++ [(h !!! du ∩ inter) ∖ excl]
          = h ++ [inter; h1 !!! du ∩ h1 !!! length h; ∅; excl;
                  (h !!! du ∩ inter) ∖ excl]) as <-
    by (unfold h4, h3, h2, h1; by rewrite <- !app_assoc).
  split; [done|apply read_new].
Qed.

Lemma petal_step_h_spec h datasets du usize fmt petals logic :
  valid h datasets → du < length h →
  ∃ ext,
    petal_step_h datasets du usize fmt petals logic h
    = (h ++ ext,
       petal_step ((h !!!.) <$> datasets) (h !!! du) usize fmt petals logic).
Proof.
  intros Hv Hdu. unfold petal_step, petal_step_h.
  pose proof (petal_set_h_spec h datasets du logic Hv Hdu) as Hps.
  destruct (petal_set ((h !!!.) <$> datasets) (h !!! du) logic) as [s|e].
  - destruct Hps as (ext & p & Hrun & Hp). exists ext.
    rewrite (h_bind_Ok _ _ h (h ++ ext) p) by done.
    rewrite bind_Ok. unfold h_len.
    rewrite (h_bind_Ok _ _ (h ++ ext) (h ++ ext) (len s)) by (by rewrite Hp).
    rewrite (h_bind_Ok _ _ (h ++ ext) (h ++ ext) (len s)) by (by rewrite Hp).
    unfold h_bind, h_lift, h_ret.
    destruct (PyFloat.truediv (100 * len s) usize) as [pct|e]; [|done].
    rewrite bind_Ok. by destruct (fmt logic (len s) pct).
  - exists []. rewrite app_nil_r.
    by rewrite (h_bind_Raise _ _ h h e).
Qed.

Lemma h_for_each_petal_step h datasets du usize fmt logics petals :
  valid h datasets → du < length h →
  ∃ ext,
    h_for_each (petal_step_h datasets du usize fmt) logics petals h
    = (h ++ ext,
       for_each (petal_step ((h !!!.) <$> datasets) (h !!! du) usize fmt)
         logics petals).
Proof.
  revert h petals. induction logics as [|logic logics IH];
    intros h petals Hv Hdu.
  - exists []. by rewrite app_nil_r.
  - destruct (petal_step_h_spec h datasets du usize fmt petals logic Hv Hdu)
      as (ext & Hstep).
    simpl.
    destruct (petal_step ((h !!!.) <$> datasets) (h !!! du) usize fmt
                petals logic) as [petals'|e].
    + rewrite (h_bind_Ok _ _ h (h ++ ext) petals') by done. rewrite bind_Ok.
      destruct (IH (h ++ ext) petals') as (ext' & Hloop).
      { by apply valid_old. }
      { rewrite length_app. lia. }
      exists (ext ++ ext'). rewrite Hloop.
      by rewrite values_old, read_old, app_assoc.
    + exists ext. by rewrite (h_bind_Raise _ _ h (h ++ ext) e).
Qed.

(** On the store, [generate_petals] only adds objects, and what it
    returns is what [generate_petals] computes from the values of the
    datasets. *)
Lemma generate_petals_h_spec h datasets fmt :
  valid h datasets →
  ∃ ext,
    generate_petals_h datasets fmt h
    = (h ++ ext, generate_petals ((h !!!.) <$> datasets) fmt).
Proof.
  intros Hv. unfold generate_petals, generate_petals_h.
  pose proof (h_set_union_spec h datasets) as Hu.
  rewrite length_fmap.
  destruct (set_union ((h !!!.) <$> datasets)) as [U|e].
  - rewrite (h_bind_Ok _ _ h (h ++ [U]) (length h)) by done.
    rewrite bind_Ok. unfold h_len.
    rewrite (h_bind_Ok _ _ (h ++ [U]) (h ++ [U]) (len U))
      by (by rewrite read_new).
    destruct (h_for_each_petal_step (h ++ [U]) datasets (length h) (len U)
      fmt (generate_logics (length datasets)) ∅) as (ext & Hloop).
    { by apply valid_old. }
    { rewrite length_app. simpl. lia. }
    exists ([U] ++ ext). rewrite Hloop.
    by rewrite values_old, read_new, app_assoc.
  - exists []. rewrite app_nil_r. by rewrite (h_bind_Raise _ _ h h e).
Qed.

(** C9. [generate_petals] is deterministic and free of side effects on
    its arguments. Run on a store in which the datasets are objects,
    the call leaves every object that existed before as it was (it only
    allocates new ones), its result is a function of the values of the
    datasets and of the template alone, and a second call with the same
    arguments, run after the first, returns the identical result. *)
Theorem generate_petals_pure h datasets fmt :
  valid h datasets →
  ∃ h1 h2 petals,
    generate_petals_h datasets fmt h = (h1, petals)
    ∧ generate_petals_h datasets fmt h1 = (h2, petals)
    ∧ petals = generate_petals ((h !!!.) <$> datasets) fmt
    ∧ h `prefix_of` h1 ∧ h1 `prefix_of` h2
    ∧ (∀ r s, h !! r = Some s → h1 !! r = Some s ∧ h2 !! r = Some s)
    ∧ (h1 !!!.) <$> datasets = (h !!!.) <$> datasets.
Proof.
  intros Hv.
  destruct (generate_petals_h_spec h datasets fmt Hv) as (ext & Hrun).
  destruct (generate_petals_h_spec (h ++ ext) datasets fmt) as (ext' & Hrun');
    [by apply valid_old|].
  rewrite values_old in Hrun' by done.
  eexists _, _, _. split; [exact Hrun|]. split; [exact Hrun'|].
  split; [done|]. split; [by apply prefix_app_r|].
  split; [by apply prefix_app_r|]. split; [|by apply values_old].
  intros r s Hr. split.
  - by apply lookup_app_l_Some.
  - by do 2 apply lookup_app_l_Some.
Qed.

End store_properties.

Lemma generate_petals_pure_witness :
  let h : store Z := [{[1; 2; 3]}; {[2; 3; 4]}]%Z in
  ∃ h1 h2 petals,
    generate_petals_h [0; 1] default_fmt h = (h1, petals)
    ∧ generate_petals_h [0; 1] default_fmt h1 = (h2, petals)
    ∧ h `prefix_of` h1.
Proof.
  destruct (generate_petals_pure [{[1; 2; 3]}; {[2; 3; 4]}]%Z [0; 1] default_fmt)
    as (h1 & h2 & petals & Hrun & Hrun' & _ & Hpre & _).
  - repeat constructor.
  - exists h1, h2, petals.
    split; [exact Hrun|]. split; [exact Hrun'|exact Hpre].
Defined.

Example generate_petals_h_example :
  let h : store Z := [{[1; 2; 3]}; {[2; 3; 4]}]%Z in
  let '(h1, petals) := generate_petals_h [0; 1] default_fmt h in
  take 2 h1 = h
  ∧ length h1 = 18
  ∧ petals
    = Ok {[ "10" := "1 (25.0%)"; "01" := "1 (25.0%)"; "11" := "2 (50.0%)" ]}.
Proof. vm_compute. repeat split; reflexivity. Qed.

(** * Further properties *)

(** ** The order of the bits of a pattern *)

Lemma bits_lookup n v i :
  i < n → bits n v !! i = Some (Z.testbit v (Z.of_nat (n - 1 - i))).
Proof.
  revert v i. induction n as [|n IH]; intros v i Hi; [lia|].
  simpl bits. destruct (decide (i = n)) as [->|Hne].
  - rewrite lookup_app_r by (rewrite length_bits; lia).
    rewrite length_bits. replace (n - n) with 0 by lia.
    replace (S n - 1 - n) with 0 by lia.
    change (Z.of_nat 0) with 0%Z. by rewrite Z.bit0_odd.
  - rewrite lookup_app_l by (rewrite length_bits; lia).
    rewrite IH by lia.
    rewrite Z.div2_bits by lia. do 2 f_equal. lia.
Qed.

(** X6. The characters of a pattern are the binary digits of its number,
    most significant first: character [i] of the pattern numbered [k + 1]
    (the [k]-th yielded) is 1 exactly when bit [N - 1 - i] of [k + 1] is
    set. So the first dataset is the leftmost character and the highest
    bit, and the last dataset is the lowest bit. *)
Theorem generate_logics_bit n k s i :
  generate_logics n !! k = Some s → i < n →
  String.get i s
  = Some (if Z.testbit (1 + Z.of_nat k) (Z.of_nat (n - 1 - i))
          then "1"%char else "0"%char).
Proof.
  intros [-> _]%lookup_generate_logics Hi.
  by rewrite get_logic_of_bits, bits_lookup.
Qed.

Lemma generate_logics_bit_witness :
  String.get 0 "110" = Some "1"%char.
Proof.
  exact (generate_logics_bit 3 5 "110" 0 eq_refl ltac:(lia)).
Defined.

(** ** The descriptions of the petals *)

Lemma for_each_ext {A S} (body body' : S → A → result S) (l : list A) (s : S) :
  (∀ s x, x ∈ l → body s x = body' s x) →
  for_each body l s = for_each body' l s.
Proof.
  revert s. induction l as [|x l IH]; intros s Hb; simpl; [done|].
  rewrite Hb by left. destruct (body' s x) as [s'|e]; simpl; [|done].
  apply IH. intros s'' y Hy. apply Hb. by right.
Qed.

Lemma for_each_insert_Raise (g : string → result string) pre logic post
    (petals : gmap string string) e :
  (∀ l, l ∈ pre → is_Ok (g l)) → g logic = Raise e →
  for_each (λ m l, d ← g l; Ok (<[l := d]> m)) (pre ++ logic :: post) petals
  = Raise e.
Proof.
  revert petals. induction pre as [|l pre IH]; intros petals Hpre Hl; simpl.
  - by rewrite Hl.
  - destruct (Hpre l) as [d Hd]; [left|]. rewrite Hd. simpl.
    apply IH; [|done]. intros l' ?. apply Hpre. by right.
Qed.

Section descriptions_properties.
Context `{Countable K}.
Implicit Types (datasets : list (gset K)) (U : gset K).

Lemma petal_step_describe datasets U fmt petals logic :
  logic ∈ generate_logics (length datasets) →
  petal_step datasets U (len U) fmt petals logic
  = d ← describe datasets U fmt logic; Ok (<[logic := d]> petals).
Proof.
  intros Hl. unfold petal_step, describe. rewrite petal_set_Ok, bind_Ok by done.
  by destruct (PyFloat.truediv (100 * len (petal datasets U logic)) (len U)).
Qed.

Lemma generate_petals_describe datasets U fmt :
  set_union datasets = Ok U →
  generate_petals datasets fmt
  = for_each (λ m l, d ← describe datasets U fmt l; Ok (<[l := d]> m))
      (generate_logics (length datasets)) ∅.
Proof.
  intros HU. unfold generate_petals. rewrite HU, bind_Ok.
  apply for_each_ext. intros m l Hl. by apply petal_step_describe.
Qed.

(** X1. What the mapping holds: for datasets with non-empty union and a
    template that formats its arguments, the value stored under each
    pattern is the template applied to the pattern, to the size of the
    petal set of that pattern, and to 100 times that size divided by the
    size of the Universe. No later iteration overwrites it. *)
Theorem generate_petals_entries datasets U fmt :
  set_union datasets = Ok U → U ≠ ∅ → total_template fmt →
  ∃ petals,
    generate_petals datasets fmt = Ok petals
    ∧ ∀ logic, logic ∈ generate_logics (length datasets) →
        ∃ ps percentage desc,
          petal_set datasets U logic = Ok ps
          ∧ PyFloat.truediv (100 * len ps) (len U) = Ok percentage
          ∧ fmt logic (len ps) percentage = Ok desc
          ∧ petals !! logic = Some desc.
Proof.
  intros HU Hne Hfmt.
  destruct (generate_petals_Ok datasets U fmt HU Hne Hfmt)
    as (petals & Hret & _ & Hin).
  exists petals. split; [done|]. intros logic Hl.
  destruct (Hin logic Hl) as (desc & (pct & Hpct & Hdesc) & Hlook).
  exists (petal datasets U logic), pct, desc.
  split; [by apply petal_set_Ok|done].
Qed.

(** X2. A template that fails makes the whole call fail: when the
    template raises for a pattern and formats all the patterns enumerated
    before it, [generate_petals] raises that exception, and the entries
    already computed are lost. *)
Theorem generate_petals_template_error datasets U fmt pre logic post e :
  set_union datasets = Ok U →
  generate_logics (length datasets) = pre ++ logic :: post →
  (∀ l, l ∈ pre → is_Ok (describe datasets U fmt l)) →
  describe datasets U fmt logic = Raise e →
  generate_petals datasets fmt = Raise e.
Proof.
  intros HU Hlogics Hpre Hl.
  rewrite (generate_petals_describe datasets U fmt HU), Hlogics.
  by apply for_each_insert_Raise.
Qed.

End descriptions_properties.

Lemma generate_petals_entries_witness :
  ∃ petals,
    generate_petals [({[1; 2; 3]} : gset Z); {[2; 3; 4]}]%Z default_fmt
    = Ok petals
    ∧ ∃ desc, petals !! "11" = Some desc.
Proof.
  destruct (generate_petals_entries [({[1; 2; 3]} : gset Z); {[2; 3; 4]}]%Z
    {[1; 2; 3; 4]}%Z default_fmt) as (petals & Hret & Hin).
  - vm_compute. reflexivity.
  - intros Hempty. apply (f_equal size) in Hempty. vm_compute in Hempty. lia.
  - exact default_fmt_total.
  - exists petals. split; [exact Hret|].
    destruct (Hin "11") as (_ & _ & desc & _ & _ & _ & Hlook).
    + apply list_elem_of_lookup_2 with 2. reflexivity.
    + exists desc. exact Hlook.
Defined.

Lemma generate_petals_template_error_witness :
  generate_petals [({[1; 2; 3]} : gset Z); {[2; 3; 4]}]%Z failing_fmt
  = Raise (KeyError "count").
Proof.
  apply (generate_petals_template_error
    [({[1; 2; 3]} : gset Z); {[2; 3; 4]}]%Z {[1; 2; 3; 4]}%Z failing_fmt
    ["01"] "10" ["11"]).
  - vm_compute. reflexivity.
  - reflexivity.
  - intros l Hl. apply list_elem_of_singleton in Hl as ->.
    eexists. vm_compute. reflexivity.
  - vm_compute. reflexivity.
Defined.

(** ** Petals and single datasets *)

Section dataset_properties.
Context `{Countable K}.
Implicit Types (datasets : list (gset K)) (U : gset K).

Lemma elem_of_petal_get datasets U logic x i d :
  set_union datasets = Ok U →
  logic ∈ generate_logics (length datasets) →
  datasets !! i = Some d →
  x ∈ petal datasets U logic →
  String.get i logic = Some (bit_char (bool_decide (x ∈ d))).
Proof.
  intros HU (bs & -> & Hlen & Ht)%elem_of_generate_logics Hd Hx.
  apply (elem_of_petal datasets U bs x HU Hlen Ht) in Hx as ->.
  rewrite get_logic_of_bits. unfold signature.
  by rewrite list_lookup_fmap, Hd.
Qed.

Lemma petals_disjoint datasets U logic1 logic2 :
  set_union datasets = Ok U →
  logic1 ∈ generate_logics (length datasets) →
  logic2 ∈ generate_logics (length datasets) →
  logic1 ≠ logic2 →
  petal datasets U logic1 ## petal datasets U logic2.
Proof.
  intros HU (bs1 & -> & Hlen1 & Ht1)%elem_of_generate_logics
    (bs2 & -> & Hlen2 & Ht2)%elem_of_generate_logics Hne x Hx1 Hx2.
  apply (elem_of_petal datasets U bs1 x HU Hlen1 Ht1) in Hx1.
  apply (elem_of_petal datasets U bs2 x HU Hlen2 Ht2) in Hx2.
  apply Hne. by rewrite Hx1, Hx2.
Qed.

(** X3. The petals whose pattern has a 1 for a dataset partition that
    dataset: the loop body computes them without error, they are pairwise
    disjoint, their union is the dataset, and their sizes add up to the
    size of the dataset. *)
Theorem petals_of_dataset datasets U i d :
  set_union datasets = Ok U → datasets !! i = Some d →
  ∃ ps : list (gset K),
    mapM (petal_set datasets U)
      (filter (λ logic, String.get i logic = Some "1"%char)
         (generate_logics (length datasets))) = Ok ps
    ∧ (∀ j k p q, j ≠ k → ps !! j = Some p → ps !! k = Some q → p ## q)
    ∧ ⋃ ps = d
    ∧ sum_list (size <$> ps) = size d.
Proof.
  intros HU Hd.
  set (logics := filter (λ logic, String.get i logic = Some "1"%char)
                   (generate_logics (length datasets))).
  assert (NoDup logics) as Hnd
    by apply NoDup_filter, NoDup_generate_logics.
  assert (∀ logic, logic ∈ logics →
    logic ∈ generate_logics (length datasets)
    ∧ String.get i logic = Some "1"%char) as Hin.
  { intros logic [? ?]%list_elem_of_filter. done. }
  exists (petal datasets U <$> logics).
  assert (∀ j k p q, j ≠ k →
    (petal datasets U <$> logics) !! j = Some p →
    (petal datasets U <$> logics) !! k = Some q → p ## q) as Hdisj.
  { intros j k p q Hjk. rewrite !list_lookup_fmap.
    destruct (logics !! j) as [l1|] eqn:Hj; [|done].
    destruct (logics !! k) as [l2|] eqn:Hk; [|done].
    intros [= <-] [= <-].
    apply (petals_disjoint datasets U l1 l2 HU).
    - by eapply Hin, list_elem_of_lookup_2.
    - by eapply Hin, list_elem_of_lookup_2.
    - intros ->. apply Hjk. by eapply NoDup_lookup. }
  assert (⋃ (petal datasets U <$> logics) = d) as Hcover.
  { apply set_eq. intros x. rewrite elem_of_union_list. split.
    - intros (p & (logic & -> & Hl)%list_elem_of_fmap & Hx).
      destruct (Hin logic Hl) as [Hlogic Hbit].
      pose proof (elem_of_petal_get datasets U logic x i d HU Hlogic Hd Hx)
        as Hget.
      rewrite Hbit in Hget. injection Hget as Hget.
      change "1"%char with (bit_char true) in Hget.
      apply bit_char_inj in Hget. symmetry in Hget.
      by apply bool_decide_eq_true_1 in Hget.
    - intros Hx.
      assert (x ∈ U) as HxU.
      { apply (set_union_Ok _ _ HU). exists d. split; [|done].
        by eapply list_elem_of_lookup_2. }
      pose proof (signature_logic datasets U x HU HxU) as Hsig.
      exists (petal datasets U (logic_of_bits (signature datasets x))).
      split.
      + apply list_elem_of_fmap. eexists. split; [done|].
        apply list_elem_of_filter. split; [|done].
        rewrite get_logic_of_bits. unfold signature.
        rewrite list_lookup_fmap, Hd. simpl.
        by rewrite bool_decide_eq_true_2.
      + pose proof Hsig as (bs & Heq%logic_of_bits_inj & Hl & Ht)%elem_of_generate_logics.
        rewrite <- Heq in Hl, Ht. by apply elem_of_petal. }
  split; [|split; [done|split; [done|]]].
  - apply mapM_Ok. intros logic [Hl _]%Hin. by apply petal_set_Ok.
  - by rewrite size_union_list_disjoint, Hcover.
Qed.

(** X4. Datasets that share no element have no common petal: when two
    datasets are disjoint, the petal set of every pattern that has a 1
    for both is empty. *)
Theorem petal_of_disjoint_datasets datasets U logic i j di dj :
  set_union datasets = Ok U →
  logic ∈ generate_logics (length datasets) →
  datasets !! i = Some di → datasets !! j = Some dj → di ## dj →
  String.get i logic = Some "1"%char →
  String.get j logic = Some "1"%char →
  petal_set datasets U logic = Ok ∅.
Proof.
  intros HU Hlogic Hi Hj Hdisj Hbi Hbj.
  rewrite petal_set_Ok by done. f_equal.
  apply set_eq. intros x. split; [|by intros ?%not_elem_of_empty].
  intros Hx.
  pose proof (elem_of_petal_get datasets U logic x i di HU Hlogic Hi Hx) as Hgi.
  pose proof (elem_of_petal_get datasets U logic x j dj HU Hlogic Hj Hx) as Hgj.
  rewrite Hbi in Hgi. rewrite Hbj in Hgj.
  injection Hgi as Hgi. injection Hgj as Hgj.
  change "1"%char with (bit_char true) in Hgi, Hgj.
  apply bit_char_inj in Hgi, Hgj. symmetry in Hgi, Hgj.
  apply bool_decide_eq_true_1 in Hgi, Hgj.
  destruct (Hdisj x Hgi Hgj).
Qed.

(** X5. A dataset contained in another has no petal outside of it: when
    one dataset is a subset of another (or the same set given twice),
    the petal set of every pattern with a 1 for the smaller and a 0 for
    the larger is empty. *)
Theorem petal_of_nested_datasets datasets U logic i j di dj :
  set_union datasets = Ok U →
  logic ∈ generate_logics (length datasets) →
  datasets !! i = Some di → datasets !! j = Some dj → di ⊆ dj →
  String.get i logic = Some "1"%char →
  String.get j logic = Some "0"%char →
  petal_set datasets U logic = Ok ∅.
Proof.
  intros HU Hlogic Hi Hj Hsub Hbi Hbj.
  rewrite petal_set_Ok by done. f_equal.
  apply set_eq. intros x. split; [|by intros ?%not_elem_of_empty].
  intros Hx.
  pose proof (elem_of_petal_get datasets U logic x i di HU Hlogic Hi Hx) as Hgi.
  pose proof (elem_of_petal_get datasets U logic x j dj HU Hlogic Hj Hx) as Hgj.
  rewrite Hbi in Hgi. rewrite Hbj in Hgj.
  injection Hgi as Hgi. injection Hgj as Hgj.
  change "1"%char with (bit_char true) in Hgi.
  change "0"%char with (bit_char false) in Hgj.
  apply bit_char_inj in Hgi, Hgj. symmetry in Hgi, Hgj.
  apply bool_decide_eq_true_1 in Hgi. apply bool_decide_eq_false_1 in Hgj.
  destruct Hgj. by apply Hsub.
Qed.

End dataset_properties.

Lemma petals_of_dataset_witness :
  ∃ ps : list (gset Z),
    mapM (petal_set [{[1; 2; 3]}; {[2; 3; 4]}] {[1; 2; 3; 4]})%Z
      (filter (λ logic, String.get 0 logic = Some "1"%char)
         (generate_logics 2)) = Ok ps
    ∧ sum_list (size <$> ps) = 3.
Proof.
  destruct (petals_of_dataset [{[1; 2; 3]}; {[2; 3; 4]}]%Z {[1; 2; 3; 4]}%Z
    0 {[1; 2; 3]}%Z) as (ps & Hps & _ & _ & Hsum).
  - vm_compute. reflexivity.
  - reflexivity.
  - exists ps. split; [exact Hps|]. rewrite Hsum. vm_compute. reflexivity.
Defined.

Lemma petal_of_disjoint_datasets_witness :
  petal_set [{[1; 2]}; {[3; 4]}]%Z ({[1; 2; 3; 4]}%Z : gset Z) "11" = Ok ∅.
Proof.
  apply (petal_of_disjoint_datasets [{[1; 2]}; {[3; 4]}]%Z
    ({[1; 2; 3; 4]}%Z : gset Z) "11" 0 1 {[1; 2]}%Z {[3; 4]}%Z).
  - vm_compute. reflexivity.
  - apply list_elem_of_lookup_2 with 2. reflexivity.
  - reflexivity.
  - reflexivity.
  - apply (bool_decide_unpack _). vm_compute. exact I.
  - reflexivity.
  - reflexivity.
Defined.

Lemma petal_of_nested_datasets_witness :
  petal_set [{[1; 2]}; {[1; 2; 3]}]%Z ({[1; 2; 3]}%Z : gset Z) "10" = Ok ∅.
Proof.
  apply (petal_of_nested_datasets [{[1; 2]}; {[1; 2; 3]}]%Z
    ({[1; 2; 3]}%Z : gset Z) "10" 0 1 {[1; 2]}%Z {[1; 2; 3]}%Z).
  - vm_compute. reflexivity.
  - apply list_elem_of_lookup_2 with 1. reflexivity.
  - reflexivity.
  - reflexivity.
  - apply (bool_decide_unpack _). vm_compute. exact I.
  - reflexivity.
  - reflexivity.
Defined.

(** ** What [venn] draws *)

Lemma comprehension_Raise {A B} (f : A → result (option B)) pre x post e :
  (∀ y, y ∈ pre → is_Ok (f y)) → f x = Raise e →
  comprehension f (pre ++ x :: post) = Raise e.
Proof.
  induction pre as [|y pre IH]; intros Hpre Hx; simpl.
  - by rewrite Hx.
  - destruct (Hpre y) as [o Ho]; [left|]. rewrite Ho. simpl.
    rewrite IH; [done| |done]. intros z ?. apply Hpre. by right.
Qed.

Lemma choose_shape_in_range n :
  2 ≤ n ≤ 6 → choose_shape n = Ok (shape_of n).
Proof.
  intros Hn. unfold choose_shape, shape_of.
  destruct (decide (n = 6)) as [->|Hne].
  - by rewrite bool_decide_eq_false_2 by lia.
  - by rewrite bool_decide_eq_true_2 by lia.
Qed.

Lemma length_zip4 {A B C D} (la : list A) (lb : list B) (lc : list C)
    (ld : list D) :
  length (zip4 la lb lc ld)
  = Nat.min (Nat.min (length la) (length lb))
      (Nat.min (length lc) (length ld)).
Proof.
  revert lb lc ld. induction la as [|a la IH]; intros [|b lb] [|c lc] [|d ld];
    simpl; try done; try lia.
  rewrite IH. lia.
Qed.

Section venn_draws.
Variables colorspec opacity rgba coords dims angle point : Type.
Variable to_rgba : colorspec → opacity → result rgba.
Variable sample_cmap : string → nat → opacity → result (list rgba).
Variable SHAPE_COORDS : nat → option (list coords).
Variable SHAPE_DIMS : nat → option (list dims).
Variable SHAPE_ANGLES : nat → option (list angle).
Variable PETAL_LABEL_COORDS : nat → option (list (string * point)).
Variable ax_legend :
  axes rgba coords dims angle point → list string → string → Z →
  result (axes rgba coords dims angle point).

Local Abbreviation venn_ :=
  (venn to_rgba sample_cmap SHAPE_COORDS SHAPE_DIMS SHAPE_ANGLES
     PETAL_LABEL_COORDS ax_legend).
Local Abbreviation ax_t := (axes rgba coords dims angle point).

Implicit Types (petals : gmap string string) (labels : list string)
  (cmap : cmap_arg colorspec) (alpha : opacity) (fontsize : Z)
  (legend_loc : option string) (ax : option ax_t) (a : ax_t)
  (items : list (string * point)).

Lemma draw_shapes_app kind (params : list (coords * dims * angle * rgba)) a :
  draw_shapes kind params a = a ++ shape_patches kind params.
Proof.
  revert a. induction params as [|[[[c d] g] color] params IH]; intros a.
  - by rewrite app_nil_r.
  - simpl. rewrite IH. by rewrite <- app_assoc.
Qed.

Lemma draw_labels_Ok petals items fontsize a :
  (∀ logic, logic ∈ items.*1 → is_Some (petals !! logic)) →
  draw_labels petals items fontsize a
  = (a ++ label_texts petals items fontsize, Ok ()).
Proof.
  revert a. induction items as [|[logic xy] items IH]; intros a Hin.
  - by rewrite app_nil_r.
  - simpl. destruct (Hin logic) as [text Ht]; [left|].
    rewrite Ht. simpl. rewrite IH by (intros l ?; apply Hin; by right).
    by rewrite <- app_assoc.
Qed.

Lemma draw_labels_first_missing petals pre logic xy post fontsize a :
  (∀ l, l ∈ pre.*1 → is_Some (petals !! l)) →
  petals !! logic = None →
  draw_labels petals (pre ++ (logic, xy) :: post) fontsize a
  = (a ++ label_texts petals pre fontsize, Raise (KeyError logic)).
Proof.
  revert a. induction pre as [|[l xy'] pre IH]; intros a Hpre Hnone.
  - simpl. by rewrite Hnone, app_nil_r.
  - simpl. destruct (Hpre l) as [text Ht]; [left|].
    rewrite Ht. simpl. rewrite IH; [|intros l' ?; apply Hpre; by right|done].
    by rewrite <- app_assoc.
Qed.

Lemma draw_labels_ext petals1 petals2 items fontsize a :
  (∀ logic, logic ∈ items.*1 → petals1 !! logic = petals2 !! logic) →
  draw_labels petals1 items fontsize a = draw_labels petals2 items fontsize a.
Proof.
  revert a. induction items as [|[logic xy] items IH]; intros a Hagree.
  - done.
  - simpl. rewrite <- (Hagree logic) by left.
    destruct (petals1 !! logic) as [text|]; [|done].
    apply IH. intros l ?. apply Hagree. by right.
Qed.

(** [venn] once its checks and lookups have succeeded: the shapes are
    drawn, then the labels; the legend comes last, when all the labels
    were drawn. *)
Lemma venn_drawing petals labels cmap alpha fontsize legend_loc ax
    colors sc sd sa items :
  (∀ logic, is_Some (petals !! logic) → String.length logic = length labels) →
  2 ≤ length labels ≤ 6 →
  select_colors to_rgba sample_cmap (length labels) cmap alpha = Ok colors →
  SHAPE_COORDS (length labels) = Some sc →
  SHAPE_DIMS (length labels) = Some sd →
  SHAPE_ANGLES (length labels) = Some sa →
  PETAL_LABEL_COORDS (length labels) = Some items →
  venn_ petals labels cmap alpha fontsize legend_loc ax
  = match
      draw_labels petals items fontsize
        (init_axes ax
         ++ shape_patches (shape_of (length labels)) (zip4 sc sd sa colors))
    with
    | (a, Raise e) => (a, Raise e)
    | (a, Ok _) => add_legend ax_legend labels fontsize legend_loc a
    end.
Proof.
  intros Hkeys Hn Hcolors Hsc Hsd Hsa Hitems. unfold venn.
  rewrite check_petal_keys_Ok, bind_Ok
    by (apply Forall_forall; intros k Hk%elem_of_petal_keys; by apply Hkeys).
  rewrite choose_shape_in_range, bind_Ok by done.
  rewrite Hcolors, bind_Ok. unfold table_lookup.
  rewrite Hsc, Hsd, Hsa, Hitems. simpl. rewrite draw_shapes_app.
  by destruct (draw_labels petals items fontsize _) as [a [[]|e]].
Qed.

(** X7. What is on the axes when the legend is asked for. When the keys
    of the mapping have as many characters as there are labels, the
    number of labels is in [2,6], the colours and the tables are
    available and the mapping has every pattern of the label table,
    [venn] reaches its last lines with the axes holding, after what they
    held before, one patch per shape (triangles for six sets, ellipses
    otherwise), then one text per pattern of the label table, in the
    order of the table and with the description the mapping gives.
    Without a legend location these axes are returned; with one,
    [ax.legend] is called on them with all the labels, and [venn] returns
    what the call leaves or raises what it raises. *)
Theorem venn_figure petals labels cmap alpha fontsize legend_loc ax
    colors sc sd sa items :
  (∀ logic, is_Some (petals !! logic) → String.length logic = length labels) →
  2 ≤ length labels ≤ 6 →
  select_colors to_rgba sample_cmap (length labels) cmap alpha = Ok colors →
  SHAPE_COORDS (length labels) = Some sc →
  SHAPE_DIMS (length labels) = Some sd →
  SHAPE_ANGLES (length labels) = Some sa →
  PETAL_LABEL_COORDS (length labels) = Some items →
  (∀ logic, logic ∈ items.*1 → is_Some (petals !! logic)) →
  let drawn :=
    init_axes ax
    ++ shape_patches (shape_of (length labels)) (zip4 sc sd sa colors)
    ++ label_texts petals items fontsize in
  venn_ petals labels cmap alpha fontsize legend_loc ax
  = match legend_loc with
    | None => (drawn, Ok drawn)
    | Some loc =>
        match ax_legend drawn labels loc fontsize with
        | Ok figure => (figure, Ok figure)
        | Raise e => (drawn, Raise e)
        end
    end
  ∧ length (label_texts (rgba:=rgba) (coords:=coords) (dims:=dims)
              (angle:=angle) petals items fontsize) = length items.
Proof.
  intros Hkeys Hn Hcolors Hsc Hsd Hsa Hitems Hin drawn. split.
  - rewrite (venn_drawing _ _ _ _ _ _ _ colors sc sd sa items) by done.
    rewrite draw_labels_Ok by done. subst drawn. by rewrite <- !app_assoc.
  - clear -Hin. induction items as [|[logic xy] items IH]; [done|].
    simpl. destruct (Hin logic) as [text ->]; [left|]. simpl.
    f_equal. apply IH. intros l ?. apply Hin. by right.
Qed.

(** X8. The first missing pattern. Under the same conditions, except
    that the mapping lacks a pattern of the label table, [venn] raises the
    [KeyError] of the first such pattern in the order of the table; by
    then the shapes and the labels of the patterns before it are on the
    axes, and no legend is. *)
Theorem venn_first_missing_pattern petals labels cmap alpha fontsize
    legend_loc ax colors sc sd sa pre logic xy post :
  (∀ l, is_Some (petals !! l) → String.length l = length labels) →
  2 ≤ length labels ≤ 6 →
  select_colors to_rgba sample_cmap (length labels) cmap alpha = Ok colors →
  SHAPE_COORDS (length labels) = Some sc →
  SHAPE_DIMS (length labels) = Some sd →
  SHAPE_ANGLES (length labels) = Some sa →
  PETAL_LABEL_COORDS (length labels) = Some (pre ++ (logic, xy) :: post) →
  (∀ l, l ∈ pre.*1 → is_Some (petals !! l)) →
  petals !! logic = None →
  venn_ petals labels cmap alpha fontsize legend_loc ax
  = (init_axes ax
     ++ shape_patches (shape_of (length labels)) (zip4 sc sd sa colors)
     ++ label_texts petals pre fontsize,
     Raise (KeyError logic)).
Proof.
  intros Hkeys Hn Hcolors Hsc Hsd Hsa Hitems Hpre Hnone.
  rewrite (venn_drawing _ _ _ _ _ _ _ colors sc sd sa _) by done.
  rewrite draw_labels_first_missing by done. by rewrite <- !app_assoc.
Qed.

(** X10. [venn] reads the mapping only at the patterns of its label
    table: two mappings whose keys all have the right length and that
    agree on the patterns of the table give the same axes and the same
    outcome. Entries under other keys change nothing. *)
Theorem venn_reads_layout_keys petals1 petals2 labels cmap alpha fontsize
    legend_loc ax :
  (∀ l, is_Some (petals1 !! l) → String.length l = length labels) →
  (∀ l, is_Some (petals2 !! l) → String.length l = length labels) →
  (∀ items l, PETAL_LABEL_COORDS (length labels) = Some items →
     l ∈ items.*1 → petals1 !! l = petals2 !! l) →
  venn_ petals1 labels cmap alpha fontsize legend_loc ax
  = venn_ petals2 labels cmap alpha fontsize legend_loc ax.
Proof.
  intros Hk1 Hk2 Hagree. unfold venn.
  rewrite !check_petal_keys_Ok
    by (apply Forall_forall; intros k Hk%elem_of_petal_keys; auto).
  rewrite !bind_Ok.
  destruct (choose_shape _) as [kind|e]; simpl; [|done].
  destruct (select_colors _ _ _ _ _) as [colors|e]; simpl; [|done].
  unfold table_lookup.
  destruct (SHAPE_COORDS _) as [sc|]; simpl; [|done].
  destruct (SHAPE_DIMS _) as [sd|]; simpl; [|done].
  destruct (SHAPE_ANGLES _) as [sa|]; simpl; [|done].
  destruct (PETAL_LABEL_COORDS _) as [items|] eqn:Hitems; simpl; [|done].
  by rewrite (draw_labels_ext petals1 petals2) by (intros l ?; by eapply Hagree).
Qed.

End venn_draws.

Lemma keys_length_decide (petals : gmap string string) n :
  bool_decide (map_Forall (λ k _, String.length k = n) petals) = true →
  ∀ logic, is_Some (petals !! logic) → String.length logic = n.
Proof.
  intros Hall%bool_decide_eq_true_1 logic [v Hv].
  by apply (map_Forall_lookup_1 _ _ _ _ Hall Hv).
Qed.

Lemma keys_present_decide (petals : gmap string string) (keys : list string) :
  bool_decide (Forall (λ k, is_Some (petals !! k)) keys) = true →
  ∀ logic, logic ∈ keys → is_Some (petals !! logic).
Proof. intros Hall%bool_decide_eq_true_1. by apply Forall_forall. Qed.

Lemma venn_figure_witness :
  ∃ figure,
    Demo.venn {[ "01" := "1 (25.0%)"; "10" := "1 (25.0%)"; "11" := "2 (50.0%)" ]}
      ["A"; "B"] = (figure, Ok figure)
    ∧ length figure = 6.
Proof.
  destruct (venn_figure () () () () () () ()
    Demo.to_rgba Demo.sample_cmap Demo.SHAPES Demo.SHAPES Demo.SHAPES
    Demo.PETAL_LABEL_COORDS Demo.ax_legend
    {[ "01" := "1 (25.0%)"; "10" := "1 (25.0%)"; "11" := "2 (50.0%)" ]}
    ["A"; "B"] (CmapName "viridis") () 13%Z (Some "upper right") None
    [(); ()] [(); ()] [(); ()] [(); ()]
    [("01", ()); ("10", ()); ("11", ())]) as [Hv _].
  - apply keys_length_decide. vm_compute. reflexivity.
  - simpl. lia.
  - reflexivity.
  - reflexivity.
  - reflexivity.
  - reflexivity.
  - reflexivity.
  - apply keys_present_decide. vm_compute. reflexivity.
  - eexists. split; [exact Hv|]. vm_compute. reflexivity.
Defined.

Lemma venn_first_missing_pattern_witness :
  ∃ drawn,
    Demo.venn {[ "01" := "1 (25.0%)"; "11" := "2 (50.0%)" ]} ["A"; "B"]
    = (drawn, Raise (KeyError "10")) ∧ length drawn = 3.
Proof.
  eexists. split.
  - apply (venn_first_missing_pattern () () () () () () ()
      Demo.to_rgba Demo.sample_cmap Demo.SHAPES Demo.SHAPES Demo.SHAPES
      Demo.PETAL_LABEL_COORDS Demo.ax_legend
      {[ "01" := "1 (25.0%)"; "11" := "2 (50.0%)" ]}
      ["A"; "B"] (CmapName "viridis") () 13%Z (Some "upper right") None
      [(); ()] [(); ()] [(); ()] [(); ()]
      [("01", ())] "10" () [("11", ())]).
    + apply keys_length_decide. vm_compute. reflexivity.
    + simpl. lia.
    + reflexivity.
    + reflexivity.
    + reflexivity.
    + reflexivity.
    + reflexivity.
    + apply keys_present_decide. vm_compute. reflexivity.
    + vm_compute. reflexivity.
  - vm_compute. reflexivity.
Defined.

Lemma venn_reads_layout_keys_witness :
  Demo.venn {[ "01" := "1 (25.0%)"; "10" := "1 (25.0%)"; "11" := "2 (50.0%)" ]}
    ["A"; "B"]
  = Demo.venn {[ "00" := "0 (0.0%)"; "01" := "1 (25.0%)"; "10" := "1 (25.0%)";
                 "11" := "2 (50.0%)" ]} ["A"; "B"].
Proof.
  apply (venn_reads_layout_keys () () () () () () ()
    Demo.to_rgba Demo.sample_cmap Demo.SHAPES Demo.SHAPES Demo.SHAPES
    Demo.PETAL_LABEL_COORDS Demo.ax_legend).
  - apply keys_length_decide. vm_compute. reflexivity.
  - apply keys_length_decide. vm_compute. reflexivity.
  - intros items l [= <-] Hl.
    repeat (apply elem_of_cons in Hl as [->|Hl]; [vm_compute; reflexivity|]).
    by apply elem_of_nil in Hl.
Defined.

(** ** The colours *)

Section colors.
Variables colorspec opacity rgba coords dims angle point : Type.
Variable to_rgba : colorspec → opacity → result rgba.
Variable sample_cmap : string → nat → opacity → result (list rgba).
Variable SHAPE_COORDS : nat → option (list coords).
Variable SHAPE_DIMS : nat → option (list dims).
Variable SHAPE_ANGLES : nat → option (list angle).
Variable PETAL_LABEL_COORDS : nat → option (list (string * point)).
Variable ax_legend :
  axes rgba coords dims angle point → list string → string → Z →
  result (axes rgba coords dims angle point).

Implicit Types (petals : gmap string string) (labels : list string)
  (alpha : opacity) (fontsize : Z) (legend_loc : option string)
  (ax : option (axes rgba coords dims angle point))
  (items : list (string * point)).

Lemma select_colors_list_Ok n (l : list colorspec) alpha (g : colorspec → rgba) :
  2 ≤ n ≤ 6 → (∀ c, c ∈ l → to_rgba c alpha = Ok (g c)) →
  select_colors to_rgba sample_cmap n (CmapList l) alpha = Ok (g <$> take n l).
Proof.
  intros Hn Hl. unfold select_colors.
  rewrite bool_decide_eq_false_2 by lia.
  rewrite (comprehension_omap _ (λ c, Some (g c))).
  - rewrite bind_Ok, fmap_take. by do 2 f_equal.
  - intros c Hc. by rewrite Hl.
Qed.

Lemma length_label_texts petals items fontsize :
  (∀ logic, logic ∈ items.*1 → is_Some (petals !! logic)) →
  length (label_texts (rgba:=rgba) (coords:=coords) (dims:=dims)
            (angle:=angle) petals items fontsize) = length items.
Proof.
  induction items as [|[logic xy] items IH]; intros Hin; [done|].
  simpl. destruct (Hin logic) as [text ->]; [left|]. simpl.
  f_equal. apply IH. intros l ?. apply Hin. by right.
Qed.

(** X11. A list of colours is cut to the number of sets and never
    completed: when every colour of the list is valid, [select_colors]
    returns the conversions of its first [n_colors] elements, so
    [n_colors] colours when the list is long enough and as many as the
    list has otherwise. *)
Theorem select_colors_list n (l : list colorspec) alpha (g : colorspec → rgba) :
  2 ≤ n ≤ 6 → (∀ c, c ∈ l → to_rgba c alpha = Ok (g c)) →
  ∃ colors,
    select_colors to_rgba sample_cmap n (CmapList l) alpha = Ok colors
    ∧ colors = g <$> take n l
    ∧ length colors = Nat.min n (length l).
Proof.
  intros Hn Hl. exists (g <$> take n l).
  split; [by apply select_colors_list_Ok|]. split; [done|].
  by rewrite length_fmap, length_take.
Qed.

(** X12. Every colour of the list is converted, also those that will not
    be used: an invalid colour anywhere in the list makes
    [select_colors] raise the exception of its conversion, even when it
    comes after the first [n_colors] colours. *)
Theorem select_colors_invalid_color n (pre post : list colorspec) c alpha e :
  2 ≤ n ≤ 6 →
  (∀ c', c' ∈ pre → is_Ok (to_rgba c' alpha)) →
  to_rgba c alpha = Raise e →
  select_colors to_rgba sample_cmap n (CmapList (pre ++ c :: post)) alpha
  = Raise e.
Proof.
  intros Hn Hpre Hc. unfold select_colors.
  rewrite bool_decide_eq_false_2 by lia.
  rewrite (comprehension_Raise _ pre c post e); [done| |by rewrite Hc].
  intros c' [rgba' Hc']%Hpre. rewrite Hc'. by eexists.
Qed.

(** X13. A list with fewer colours than sets is not rejected: [venn]
    draws only as many shapes as there are colours, draws the labels of
    all the patterns all the same, and goes on to its last lines, the
    legend and the return of the axes. *)
Theorem venn_short_color_list petals labels (l : list colorspec) alpha
    (g : colorspec → rgba) fontsize legend_loc ax sc sd sa items :
  (∀ logic, is_Some (petals !! logic) → String.length logic = length labels) →
  2 ≤ length labels ≤ 6 →
  (∀ c, c ∈ l → to_rgba c alpha = Ok (g c)) →
  length l ≤ length labels →
  SHAPE_COORDS (length labels) = Some sc → length sc = length labels →
  SHAPE_DIMS (length labels) = Some sd → length sd = length labels →
  SHAPE_ANGLES (length labels) = Some sa → length sa = length labels →
  PETAL_LABEL_COORDS (length labels) = Some items →
  (∀ logic, logic ∈ items.*1 → is_Some (petals !! logic)) →
  ∃ patches,
    venn to_rgba sample_cmap SHAPE_COORDS SHAPE_DIMS SHAPE_ANGLES
      PETAL_LABEL_COORDS ax_legend petals labels (CmapList l) alpha fontsize
      legend_loc ax
    = add_legend ax_legend labels fontsize legend_loc
        (init_axes ax ++ patches ++ label_texts petals items fontsize)
    ∧ patches = shape_patches (shape_of (length labels))
                  (zip4 sc sd sa (g <$> l))
    ∧ length patches = length l
    ∧ length (label_texts (rgba:=rgba) (coords:=coords) (dims:=dims)
                (angle:=angle) petals items fontsize) = length items.
Proof.
  intros Hkeys Hn Hl Hshort Hsc Hlsc Hsd Hlsd Hsa Hlsa Hitems Hin.
  eexists. split; [|split; [done|split]].
  - rewrite (venn_drawing _ _ _ _ _ _ _ _ _ _ _ _ _ _ _ _ _ _ _ _ _
      (g <$> l) sc sd sa items); try done.
    + rewrite draw_labels_Ok by done. by rewrite <- !app_assoc.
    + rewrite (select_colors_list_Ok _ _ _ g) by done.
      by rewrite take_ge by lia.
  - unfold shape_patches. rewrite length_fmap, length_zip4, length_fmap. lia.
  - by apply length_label_texts.
Qed.

End colors.

(** ** From the datasets to the figure *)

Section composition.
Context `{Countable K}.
Variables colorspec opacity rgba coords dims angle point : Type.
Variable to_rgba : colorspec → opacity → result rgba.
Variable sample_cmap : string → nat → opacity → result (list rgba).
Variable SHAPE_COORDS : nat → option (list coords).
Variable SHAPE_DIMS : nat → option (list dims).
Variable SHAPE_ANGLES : nat → option (list angle).
Variable PETAL_LABEL_COORDS : nat → option (list (string * point)).
Variable ax_legend :
  axes rgba coords dims angle point → list string → string → Z →
  result (axes rgba coords dims angle point).

(** X14. [generate_petals] and [venn] fit together: for 2 to 6 datasets
    with non-empty union, as many labels, a template that formats its
    arguments, colours and tables that are available and a label table
    whose patterns are patterns of that many datasets, the mapping of
    [generate_petals] passes the checks of [venn] and has every pattern
    the table asks for; [venn] draws all the zipped shapes and one label
    per pattern of the table and goes on to its last lines, the legend
    and the return of the axes. *)
Theorem venn_of_generate_petals (datasets : list (gset K)) (U : gset K)
    (fmt : template) labels (cmap : cmap_arg colorspec) (alpha : opacity)
    fontsize legend_loc (ax : option (axes rgba coords dims angle point))
    colors sc sd sa items :
  set_union datasets = Ok U → U ≠ ∅ → total_template fmt →
  length labels = length datasets → 2 ≤ length datasets ≤ 6 →
  select_colors to_rgba sample_cmap (length labels) cmap alpha = Ok colors →
  SHAPE_COORDS (length labels) = Some sc →
  SHAPE_DIMS (length labels) = Some sd →
  SHAPE_ANGLES (length labels) = Some sa →
  PETAL_LABEL_COORDS (length labels) = Some items →
  (∀ logic, logic ∈ items.*1 → logic ∈ generate_logics (length datasets)) →
  ∃ petals,
    generate_petals datasets fmt = Ok petals
    ∧ venn to_rgba sample_cmap SHAPE_COORDS SHAPE_DIMS SHAPE_ANGLES
        PETAL_LABEL_COORDS ax_legend petals labels cmap alpha fontsize
        legend_loc ax
      = add_legend ax_legend labels fontsize legend_loc
          (init_axes ax
           ++ shape_patches (shape_of (length labels)) (zip4 sc sd sa colors)
           ++ label_texts petals items fontsize)
    ∧ length (label_texts (rgba:=rgba) (coords:=coords) (dims:=dims)
                (angle:=angle) petals items fontsize) = length items.
Proof.
  intros HU Hne Hfmt Hlen Hn Hcolors Hsc Hsd Hsa Hitems Hlayout.
  destruct (generate_petals_Ok datasets U fmt HU Hne Hfmt)
    as (petals & Hret & Hout & Hin).
  assert (∀ logic, is_Some (petals !! logic) →
    String.length logic = length labels) as Hkeys.
  { intros logic Hsome. rewrite Hlen.
    destruct (decide (logic ∈ generate_logics (length datasets)))
      as [(bs & -> & Hbs & _)%elem_of_generate_logics|Hnot].
    - by rewrite length_logic_of_bits.
    - rewrite Hout in Hsome by done. by destruct Hsome. }
  assert (∀ logic, logic ∈ items.*1 → is_Some (petals !! logic)) as Hpresent.
  { intros logic (desc & _ & ->)%Hlayout%Hin. by eexists. }
  exists petals. split; [done|]. split.
  - rewrite (venn_drawing _ _ _ _ _ _ _ _ _ _ _ _ _ _ _ _ _ _ _ _ _
      colors sc sd sa items); try done; [|lia].
    rewrite draw_labels_Ok by done. by rewrite <- !app_assoc.
  - by apply length_label_texts.
Qed.

End composition.

Lemma select_colors_list_witness :
  ∃ colors,
    select_colors Demo.to_rgba Demo.sample_cmap 2 (CmapList [(); (); ()]) ()
    = Ok colors
    ∧ length colors = 2.
Proof.
  destruct (select_colors_list () () () Demo.to_rgba Demo.sample_cmap
    2 [(); (); ()] () (λ _, ())) as (colors & Hret & _ & Hlen).
  - lia.
  - reflexivity.
  - exists colors. split; [exact Hret|exact Hlen].
Defined.

Lemma select_colors_invalid_color_witness :
  select_colors named_to_rgba (λ _ n _, Ok (replicate n "red")) 2
    (CmapList ["red"; "green"; "no such colour"]) ()
  = Raise (ValueError "Invalid RGBA argument").
Proof.
  apply (select_colors_invalid_color string () string named_to_rgba
    (λ _ n _, Ok (replicate n "red")) 2 ["red"; "green"] []
    "no such colour" ()).
  - lia.
  - intros c Hc.
    repeat (apply elem_of_cons in Hc as [->|Hc]; [by eexists|]).
    by apply elem_of_nil in Hc.
  - reflexivity.
Defined.

Lemma venn_short_color_list_witness :
  ∃ figure,
    venn Demo.to_rgba Demo.sample_cmap Demo.SHAPES Demo.SHAPES Demo.SHAPES
      Demo.PETAL_LABEL_COORDS Demo.ax_legend
      {[ "01" := "1 (25.0%)"; "10" := "1 (25.0%)"; "11" := "2 (50.0%)" ]}
      ["A"; "B"] (CmapList [()]) () 13 (Some "upper right") None
    = (figure, Ok figure)
    ∧ length (filter (λ a, Demo.is_patch a) figure) = 1.
Proof.
  destruct (venn_short_color_list () () () () () () ()
    Demo.to_rgba Demo.sample_cmap Demo.SHAPES Demo.SHAPES Demo.SHAPES
    Demo.PETAL_LABEL_COORDS Demo.ax_legend
    {[ "01" := "1 (25.0%)"; "10" := "1 (25.0%)"; "11" := "2 (50.0%)" ]}
    ["A"; "B"] [()] () (λ _, ()) 13%Z (Some "upper right") None
    [(); ()] [(); ()] [(); ()] [("01", ()); ("10", ()); ("11", ())])
    as (patches & Hv & -> & _).
  - apply keys_length_decide. vm_compute. reflexivity.
  - simpl. lia.
  - reflexivity.
  - simpl. lia.
  - reflexivity.
  - reflexivity.
  - reflexivity.
  - reflexivity.
  - reflexivity.
  - reflexivity.
  - reflexivity.
  - apply keys_present_decide. vm_compute. reflexivity.
  - eexists. split; [exact Hv|]. vm_compute. reflexivity.
Defined.

Lemma venn_of_generate_petals_witness :
  ∃ petals,
    generate_petals [({[1; 2; 3]} : gset Z); {[2; 3; 4]}]%Z default_fmt
    = Ok petals
    ∧ ∃ figure, Demo.venn petals ["A"; "B"] = (figure, Ok figure).
Proof.
  destruct (venn_of_generate_petals () () () () () () ()
    Demo.to_rgba Demo.sample_cmap Demo.SHAPES Demo.SHAPES Demo.SHAPES
    Demo.PETAL_LABEL_COORDS Demo.ax_legend
    [({[1; 2; 3]} : gset Z); {[2; 3; 4]}]%Z {[1; 2; 3; 4]}%Z default_fmt
    ["A"; "B"] (CmapName "viridis") () 13%Z (Some "upper right") None
    [(); ()] [(); ()] [(); ()] [(); ()]
    [("01", ()); ("10", ()); ("11", ())])
    as (petals & Hret & Hv & _).
  - vm_compute. reflexivity.
  - intros Hempty. apply (f_equal size) in Hempty. vm_compute in Hempty. lia.
  - exact default_fmt_total.
  - reflexivity.
  - simpl. lia.
  - reflexivity.
  - reflexivity.
  - reflexivity.
  - reflexivity.
  - reflexivity.
  - intros logic Hl. exact Hl.
  - exists petals. split; [exact Hret|]. eexists. exact Hv.
Defined.

(** ** The elements themselves do not matter *)

Section renaming.
Context `{Countable K, Countable K'}.
Variable f : K → K'.
Hypothesis f_inj : Inj (=) (=) f.

Local Abbreviation rename := (set_map (C:=gset K) (D:=gset K') f).

Lemma rename_intersection (X Y : gset K) :
  rename (X ∩ Y) = rename X ∩ rename Y.
Proof.
  apply set_eq. intros y. rewrite elem_of_intersection, !elem_of_map. split.
  - intros (x & -> & [? ?]%elem_of_intersection).
    split; exists x; by split.
  - intros [(x & -> & Hx) (x' & Heq%f_inj & Hx')]. subst x'.
    exists x. split; [done|]. by apply elem_of_intersection.
Qed.

Lemma rename_foldl_union (s : gset K) others :
  rename (foldl (∪) s others) = foldl (∪) (rename s) (rename <$> others).
Proof.
  revert s. induction others as [|d others IH]; intros s; simpl; [done|].
  by rewrite IH, set_map_union_L.
Qed.

Lemma rename_foldl_intersection (s : gset K) others :
  rename (foldl (∩) s others) = foldl (∩) (rename s) (rename <$> others).
Proof.
  revert s. induction others as [|d others IH]; intros s; simpl; [done|].
  by rewrite IH, rename_intersection.
Qed.

Lemma rename_set_union (l : list (gset K)) :
  set_union (rename <$> l) = result_map rename (set_union l).
Proof. destruct l; simpl; [done|]. by rewrite rename_foldl_union. Qed.

Lemma rename_set_intersection (l : list (gset K)) :
  set_intersection (rename <$> l) = result_map rename (set_intersection l).
Proof. destruct l; simpl; [done|]. by rewrite rename_foldl_intersection. Qed.

Lemma rename_len (X : gset K) : len (rename X) = len X.
Proof.
  unfold len. f_equal. unfold set_map.
  rewrite size_list_to_set.
  - by rewrite length_fmap.
  - apply (NoDup_fmap_2 f), NoDup_elements.
Qed.

Lemma rename_petal_set (datasets : list (gset K)) (U : gset K) logic :
  petal_set (rename <$> datasets) (rename U) logic
  = result_map rename (petal_set datasets U logic).
Proof.
  unfold petal_set. rewrite length_fmap, !select_sets_map.
  destruct (select_sets datasets (length datasets) logic "1")
    as [inc|e]; cbn [result_map]; [rewrite !bind_Ok|done].
  destruct (select_sets datasets (length datasets) logic "0")
    as [exc|e]; cbn [result_map]; [rewrite !bind_Ok|done].
  rewrite rename_set_intersection.
  destruct (set_intersection inc) as [inter|e];
    cbn [result_map]; [rewrite !bind_Ok|done].
  rewrite <- (set_map_empty (C:=gset K) (D:=gset K') f), <- fmap_cons.
  rewrite rename_set_union. cbn [set_union result_map]. rewrite !bind_Ok.
  cbn [result_map]. f_equal.
  by rewrite set_map_difference_L, rename_intersection.
Qed.

(** X15. The mapping depends on how the elements are shared between the
    datasets, not on what they are: replacing every element by its image
    under an injective function, in all the datasets at once, changes
    neither the outcome of [generate_petals] nor any description. *)
Theorem generate_petals_renaming (datasets : list (gset K)) (fmt : template) :
  generate_petals (set_map (D:=gset K') f <$> datasets) fmt
  = generate_petals datasets fmt.
Proof.
  unfold generate_petals. rewrite length_fmap, rename_set_union.
  destruct (set_union datasets) as [U|e]; cbn [result_map]; [|done].
  rewrite !bind_Ok, rename_len.
  apply for_each_ext. intros petals logic _. unfold petal_step.
  rewrite rename_petal_set.
  destruct (petal_set datasets U logic) as [ps|e]; cbn [result_map]; [|done].
  by rewrite !bind_Ok, rename_len.
Qed.

End renaming.

Lemma generate_petals_renaming_witness :
  generate_petals
    (set_map (D:=gset Z) (Z.add 10) <$> [({[1; 2; 3]} : gset Z); {[2; 3; 4]}]%Z)
    default_fmt
  = generate_petals [({[1; 2; 3]} : gset Z); {[2; 3; 4]}]%Z default_fmt.
Proof.
  apply (generate_petals_renaming (Z.add 10)).
  intros x y Hxy. lia.
Defined.

(** ** The exceptions that can come out *)

Lemma for_each_insert_Raise_inv (g : string → result string) logics
    (petals : gmap string string) e :
  for_each (λ m l, d ← g l; Ok (<[l := d]> m)) logics petals = Raise e →
  ∃ logic, logic ∈ logics ∧ g logic = Raise e.
Proof.
  revert petals. induction logics as [|l logics IH]; intros petals; simpl.
  - done.
  - destruct (g l) as [d|e'] eqn:Hl; simpl.
    + intros (logic & ? & ?)%IH. exists logic. split; [by right|done].
    + intros [= <-]. exists l. split; [left|done].
Qed.

Section generate_petals_errors.
Context `{Countable K}.

(** X16. The exceptions of [generate_petals]: [TypeError] when there is
    no dataset, [ZeroDivisionError] when all the datasets are empty, and
    otherwise only what the template raises. The indexing of the patterns
    and of the datasets and the intersection of the included sets never
    fail. *)
Theorem generate_petals_exceptions (datasets : list (gset K)) fmt e :
  generate_petals datasets fmt = Raise e →
  (datasets = [] ∧ e = TypeError)
  ∨ (datasets ≠ [] ∧ (∀ d, d ∈ datasets → d = ∅) ∧ e = ZeroDivisionError)
  ∨ (∃ logic size percentage, fmt logic size percentage = Raise e).
Proof.
  destruct datasets as [|d0 others] eqn:Hd.
  { intros [= <-]. by left. }
  rewrite <- Hd. assert (datasets ≠ []) as Hne by (by subst).
  clear Hd d0 others.
  destruct (set_union datasets) as [U|e'] eqn:HU; [|by destruct datasets].
  rewrite (generate_petals_describe datasets U fmt HU).
  intros (logic & _ & Hdesc)%for_each_insert_Raise_inv.
  unfold describe, PyFloat.truediv in Hdesc.
  case_bool_decide as Hzero.
  - injection Hdesc as <-. right. left. split; [done|]. split; [|done].
    assert (U = ∅) as ->.
    { destruct (decide (U = ∅)) as [|HUne]; [done|].
      by apply len_nonzero in HUne. }
    intros d Hdin. apply set_eq. intros x. split.
    + intros Hx. apply (set_union_Ok _ _ HU). eauto.
    + by intros ?%not_elem_of_empty.
  - rewrite bind_Ok in Hdesc. right. right. eauto.
Qed.

End generate_petals_errors.

Lemma generate_petals_exceptions_witness :
  (∃ logic size percentage,
     failing_fmt logic size percentage = Raise (KeyError "count")).
Proof.
  destruct (generate_petals_exceptions
    [({[1; 2; 3]} : gset Z); {[2; 3; 4]}]%Z failing_fmt (KeyError "count"))
    as [[Hnil _]|[(_ & _ & He)|Hfmt]].
  - vm_compute. reflexivity.
  - discriminate Hnil.
  - discriminate He.
  - exact Hfmt.
Defined.

